(** * Verification of pyspark.sql.connect.conversion

    A shallow embedding of the two converter builders of
    [python/pyspark/sql/connect/conversion.py]:
    [LocalDataToArrowConversion] (local rows to Arrow, "outbound") and
    [ArrowTableToRowsConversion] (Arrow to rows, "inbound"), together with
    the properties stated about them. *)

From Stdlib Require Import ZArith QArith List String Ascii Bool Lia Permutation.
From Stdlib Require Import Strings.Byte.
From Stdlib Require Import DecimalString.
Import ListNotations.
Set Warnings "-register-all".
Local Open Scope string_scope.
Local Open Scope list_scope.
Local Open Scope Z_scope.

(* ================================================================== *)
(** * Python values *)
(* ================================================================== *)

(** A binary floating point number: not-a-number, an infinity, or the
    finite value [m * 2^e]. *)
Inductive pyfloat : Type :=
| FNaN
| FInf (neg : bool)
| FFinite (m e : Z).

(** A [decimal.Decimal]: a (quiet or signaling) NaN, an infinity, or the
    finite value [(-1)^neg * coeff * 10^exp]. *)
Inductive pydecimal : Type :=
| DNaN (signaling : bool)
| DInf (neg : bool)
| DFinite (neg : bool) (coeff : N) (exp : Z).

(** A [datetime.tzinfo], reduced to what the converters observe: its name
    and its offset from UTC in microseconds. *)
Record tzinfo : Type := mkTz { tzname : string; utcoffset : Z }.

(** [datetime.timezone.utc] *)
Definition timezone_utc : tzinfo := {| tzname := "UTC"; utcoffset := 0 |}.

(** A [datetime.datetime]: the wall-clock reading in microseconds since
    0001-01-01T00:00:00, and the attached zone ([None] for a naive value).
    The calendar holds the readings from 0 to [datetime_max]. *)
Record datetime : Type := mkDatetime { wall : Z; tz : option tzinfo }.

(** The values the converters distinguish.  A [str] is a [string]; [bytes]
    and [bytearray] are byte lists; [array.array], [list] and [tuple] hold
    their elements; a [Row] is a tuple that may carry [__fields__]; a
    [dict] is the list of its items in insertion order. *)
Inductive pyval : Type :=
| VNone
| VBool (b : bool)
| VInt (n : Z)
| VFloat (f : pyfloat)
| VStr (s : string)
| VBytes (b : list byte)
| VBytearray (b : list byte)
| VDecimal (d : pydecimal)
| VDate (ordinal : Z)
| VDatetime (d : datetime)
| VTimedelta (microseconds : Z)
| VList (l : list pyval)
| VArray (l : list pyval)
| VTuple (l : list pyval)
| VRow (fields : option (list string)) (l : list pyval)
| VDict (items : list (pyval * pyval)).

(** The exceptions the module and the builtins it calls can raise;
    [ArrowException] stands for whatever the Arrow collaborators raise. *)
Inductive exn : Type :=
| AssertionError
| KeyError
| IndexError
| TypeError
| ArrowException
| OverflowError
| ValueError
| OSError.

Inductive result (A : Type) : Type :=
| Ok (a : A)
| Raise (e : exn).
Arguments Ok {A} a.
Arguments Raise {A} e.

Definition bind {A B : Type} (m : result A) (k : A -> result B) : result B :=
  match m with
  | Ok a => k a
  | Raise e => Raise e
  end.

Notation "x <- m ;; k" := (bind m (fun x => k))
  (at level 61, m at next level, right associativity).
Notation "m ;;; k" := (bind m (fun _ => k))
  (at level 61, right associativity).

(** [assert c] *)
Definition assert (c : bool) : result unit :=
  if c then Ok tt else Raise AssertionError.

(* ================================================================== *)
(** * Schema types *)
(* ================================================================== *)

Inductive DataType : Type :=
| NullType
| BooleanType
| ByteType
| ShortType
| IntegerType
| LongType
| FloatType
| DoubleType
| DateType
| DayTimeIntervalType
| StringType
| BinaryType
| TimestampType
| TimestampNTZType
| DecimalType (precision scale : Z)
| ArrayType (elementType : DataType)
| MapType (keyType valueType : DataType)
| StructType (fields : list StructField)
with StructField : Type :=
| mkStructField (name : string) (dataType : DataType) (nullable : bool).

Definition name (f : StructField) : string :=
  match f with mkStructField n _ _ => n end.
Definition dataType (f : StructField) : DataType :=
  match f with mkStructField _ t _ => t end.

Definition fieldNames (fields : list StructField) : list string :=
  map name fields.

(* ================================================================== *)
(** * Equality and hashing of dictionary keys *)
(* ================================================================== *)

(** The number a numeric value denotes. *)
Inductive numval : Type :=
| NumNaN
| NumInf (neg : bool)
| NumFin (q : Q).

Definition scaled (n base e : Z) : Q :=
  if 0 <=? e then inject_Z (n * base ^ e)
  else Qmake n (Z.to_pos (base ^ (- e))).

Definition float_value (f : pyfloat) : numval :=
  match f with
  | FNaN => NumNaN
  | FInf s => NumInf s
  | FFinite m e => NumFin (scaled m 2 e)
  end.

Definition decimal_value (d : pydecimal) : numval :=
  match d with
  | DNaN _ => NumNaN
  | DInf s => NumInf s
  | DFinite s c e =>
      NumFin (scaled (if s then - Z.of_N c else Z.of_N c) 10 e)
  end.

(** [bool], [int], [float] and [Decimal] compare by numeric value. *)
Definition numeric (v : pyval) : option numval :=
  match v with
  | VBool b => Some (NumFin (inject_Z (if b then 1 else 0)))
  | VInt n => Some (NumFin (inject_Z n))
  | VFloat f => Some (float_value f)
  | VDecimal d => Some (decimal_value d)
  | _ => None
  end.

Definition num_eqb (x y : numval) : bool :=
  match x, y with
  | NumFin p, NumFin q => Qeq_bool p q
  | NumInf s, NumInf t => Bool.eqb s t
  | _, _ => false
  end.
Arguments num_eqb : simpl never.

(** Two aware datetimes are equal when they denote the same instant, two
    naive ones when their readings agree; a naive one never equals an
    aware one. *)
Definition datetime_eqb (a b : datetime) : bool :=
  match tz a, tz b with
  | None, None => wall a =? wall b
  | Some x, Some y => wall a - utcoffset x =? wall b - utcoffset y
  | _, _ => false
  end.

(** [hash(v)] succeeds. *)
Fixpoint py_hashable (v : pyval) : bool :=
  match v with
  | VNone | VBool _ | VInt _ | VFloat _ | VStr _ | VBytes _
  | VDate _ | VDatetime _ | VTimedelta _ => true
  | VDecimal d => match d with DNaN true => false | _ => true end
  | VTuple l | VRow _ l => forallb py_hashable l
  | VBytearray _ | VList _ | VArray _ | VDict _ => false
  end.

(** [a == b] for hashable values, as a [dict] compares its keys.  A NaN
    equals nothing (object identity is not modelled); an unhashable value
    never is a key. *)
Fixpoint key_eqb (a b : pyval) {struct a} : bool :=
  match a with
  | VNone => match b with VNone => true | _ => false end
  | VBool _ | VInt _ | VFloat _ | VDecimal _ =>
      match numeric a, numeric b with
      | Some x, Some y => num_eqb x y
      | _, _ => false
      end
  | VStr s => match b with VStr t => String.eqb s t | _ => false end
  | VBytes x =>
      match b with
      | VBytes y => if list_eq_dec Byte.byte_eq_dec x y then true else false
      | _ => false
      end
  | VDate x => match b with VDate y => x =? y | _ => false end
  | VDatetime x => match b with VDatetime y => datetime_eqb x y | _ => false end
  | VTimedelta x => match b with VTimedelta y => x =? y | _ => false end
  | VTuple l | VRow _ l =>
      match b with
      | VTuple l' | VRow _ l' =>
          (fix all2 (xs ys : list pyval) {struct xs} : bool :=
             match xs, ys with
             | [], [] => true
             | x :: xs', y :: ys' => key_eqb x y && all2 xs' ys'
             | _, _ => false
             end) l l'
      | _ => false
      end
  | VBytearray _ | VList _ | VArray _ | VDict _ => false
  end.


(* ================================================================== *)
(** * Dictionaries *)
(* ================================================================== *)

(** A [dict] with values in [V]: its items in insertion order. *)
Definition dict (V : Type) : Type := list (pyval * V).

Section Dict.
Context {V : Type}.

(** [d.get(k)]: the value of the entry whose key equals [k]. *)
Fixpoint dict_get (k : pyval) (d : dict V) : option V :=
  match d with
  | [] => None
  | (k', v) :: d' => if key_eqb k' k then Some v else dict_get k d'
  end.

(** The store of [d[k] = v]: an entry with an equal key keeps its key
    and its place and takes the new value; a new key goes last. *)
Fixpoint dict_put (k : pyval) (v : V) (d : dict V) : dict V :=
  match d with
  | [] => [(k, v)]
  | (k', v') :: d' =>
      if key_eqb k' k then (k', v) :: d' else (k', v') :: dict_put k v d'
  end.

(** [d[k]] *)
Definition getitem (d : dict V) (k : pyval) : result V :=
  if py_hashable k then
    match dict_get k d with
    | Some v => Ok v
    | None => Raise KeyError
    end
  else Raise TypeError.

(** [d[k] = v] *)
Definition setitem (d : dict V) (k : pyval) (v : V) : result (dict V) :=
  if py_hashable k then Ok (dict_put k v d) else Raise TypeError.

End Dict.

(** [seq[i]] for a list and an index [i >= 0]. *)
Definition list_index {A : Type} (l : list A) (i : nat) : result A :=
  match nth_error l i with
  | Some a => Ok a
  | None => Raise IndexError
  end.

(** [[f(v) for v in l]] *)
Fixpoint mapM {A B : Type} (f : A -> result B) (l : list A) : result (list B) :=
  match l with
  | [] => Ok []
  | a :: l' => b <- f a ;; bs <- mapM f l' ;; Ok (b :: bs)
  end.

(** [for v in value]: the elements an iteration yields. *)
Definition py_iter (value : pyval) : result (list pyval) :=
  match value with
  | VList l | VArray l | VTuple l | VRow _ l => Ok l
  | VDict items => Ok (map fst items)
  | VStr s => Ok (map (fun c => VStr (String c EmptyString)) (list_ascii_of_string s))
  | VBytes b | VBytearray b => Ok (map (fun x => VInt (Z.of_N (Byte.to_N x))) b)
  | _ => Raise TypeError
  end.

(* ================================================================== *)
(** * Builtins used by the converters *)
(* ================================================================== *)

Definition lower_ascii (c : ascii) : ascii :=
  let n := nat_of_ascii c in
  if ((65 <=? n) && (n <=? 90))%nat then ascii_of_nat (n + 32) else c.

(** [s.lower()], on the ASCII letters. *)
Fixpoint py_lower (s : string) : string :=
  match s with
  | EmptyString => EmptyString
  | String c s' => String (lower_ascii c) (py_lower s')
  end.

(** The last reading of the calendar, 9999-12-31T23:59:59.999999: the
    3652059 days of the years 1 to 9999, in microseconds, less one. *)
Definition datetime_max : Z := 3652059 * 86400 * 1000000 - 1.

(** The reading lies within the years 1 to 9999. *)
Definition in_calendar (w : Z) : bool :=
  (0 <=? w) && (w <=? datetime_max).

Section Builtins.
(** The offset from UTC, in microseconds, that the system's local zone
    gives a naive wall-clock reading; the platform may fail to resolve
    it. *)
Variable local_utcoffset : Z -> result Z.
(** [str(v)] for a float, bytes, decimal, date, datetime or timedelta. *)
Variable str_other : pyval -> string.

(** [str(v)] *)
Definition py_str (v : pyval) : string :=
  match v with
  | VBool true => "True"
  | VBool false => "False"
  | VInt n => NilZero.string_of_int (Z.to_int n)
  | VStr s => s
  | _ => str_other v
  end.

(** [d.astimezone(datetime.timezone.utc)]: the same instant, read in
    UTC; a naive value is taken to be in the system's local zone.  The
    call raises [OverflowError] when the reading in UTC falls outside the
    calendar. *)
Definition astimezone_utc (d : datetime) : result datetime :=
  offset <- match tz d with
            | Some z => Ok (utcoffset z)
            | None => local_utcoffset (wall d)
            end ;;
  if in_calendar (wall d - offset)
  then Ok {| wall := wall d - offset; tz := Some timezone_utc |}
  else Raise OverflowError.
End Builtins.

(** [d.is_nan()], for a quiet or a signaling NaN. *)
Definition is_nan (d : pydecimal) : bool :=
  match d with
  | DNaN _ => true
  | _ => false
  end.

(** [d.replace(tzinfo=None)] *)
Definition replace_tzinfo_None (d : datetime) : datetime :=
  {| wall := wall d; tz := None |}.

(** Modelled from the spec: [Row.asDict(recursive=False)] of
    [pyspark.sql.types], defined outside this module.  A named-field object
    exposes a flat, non-recursive mapping view of its own fields: the
    field names paired with the values, stored one after the other as
    [dict(zip(fields, values))] stores them. *)
Definition Row_asDict (fields : list string) (values : list pyval) : dict pyval :=
  fold_left (fun d kv => dict_put (VStr (fst kv)) (snd kv) d)
            (combine fields values) [].

(** Modelled from the spec: the row-record constructor [_create_row] of
    [pyspark.sql.types], defined outside this module, from ordered field
    names and ordered values to a row record. *)
Definition _create_row (fields : list string) (values : list pyval) : pyval :=
  VRow (Some fields) values.

Definition is_str (v : pyval) : bool :=
  match v with VStr _ => true | _ => false end.

(** Modelled from the spec: [Row()] of [pyspark.sql.types], defined
    outside this module: the row record without fields and without
    values. *)
Definition Row_empty : pyval := VRow None [].

(** Modelled from the spec: [Row] of [pyspark.sql.types], defined outside
    this module, called with keyword arguments: it materializes a named
    row record from a keyed mapping, the fields in the order of the
    mapping's items; keyword names have to be strings, and without any
    keyword the call is [Row()]. *)
Definition Row_kwargs (kwargs : dict pyval) : result pyval :=
  if forallb (fun kv => is_str (fst kv)) kwargs then
    match kwargs with
    | [] => Ok Row_empty
    | _ =>
        Ok (VRow (Some (map (fun kv => match fst kv with VStr s => s | _ => "" end)
                            kwargs))
                 (map snd kwargs))
    end
  else Raise TypeError.

(** A converter: a closure from a value to a value, which may raise. *)
Definition converter : Type := pyval -> result pyval.

(** The dict comprehension [{field.name: create(field.dataType) ...}]. *)
Definition build_convs (create : StructField -> converter)
    (fields : list StructField) : dict converter :=
  fold_left (fun d f => dict_put (VStr (name f)) (create f) d) fields [].

(* ================================================================== *)
(** * LocalDataToArrowConversion *)
(* ================================================================== *)

Module LocalDataToArrowConversion.

Fixpoint _need_converter (dt : DataType) : bool :=
  match dt with
  | NullType => true
  | StructType _ => true
  | ArrayType elementType => _need_converter elementType
  | MapType _ _ => true
  | BinaryType => true
  | TimestampType | TimestampNTZType => true
  | DecimalType _ _ => true
  | StringType => true
  | _ => false
  end.

(** The keyed loops of [convert_struct] (lines 109-111 and 113-115, run
    with [check_key]) and of [convert] (lines 248-249 and 251-252, which
    do not assert that a key is a string). *)
Fixpoint keyed_loop (check_key : bool) (convs : dict converter)
    (items : list (pyval * pyval)) (_dict : dict pyval)
  : result (dict pyval) :=
  match items with
  | [] => Ok _dict
  | (k, v) :: rest =>
      assert (negb check_key || is_str k) ;;;
      conv <- getitem convs k ;;
      r <- conv v ;;
      _dict' <- setitem _dict k r ;;
      keyed_loop check_key convs rest _dict'
  end.

(** The positional loop of [convert_struct] (lines 117-121) and of
    [convert] (lines 254-258), started at index [i]. *)
Fixpoint positional_loop (names : list string) (convs : dict converter)
    (values : list pyval) (i : nat) (_dict : dict pyval)
  : result (dict pyval) :=
  match values with
  | [] => Ok _dict
  | v :: rest =>
      field_name <- list_index names i ;;
      conv <- getitem convs (VStr field_name) ;;
      r <- conv v ;;
      _dict' <- setitem _dict (VStr field_name) r ;;
      positional_loop names convs rest (S i) _dict'
  end.

Definition convert_struct (field_names : list string)
    (field_convs : dict converter) : converter :=
  fun value =>
    match value with
    | VNone => Ok VNone
    | VDict items =>
        _dict <- keyed_loop true field_convs items [] ;;
        Ok (VDict _dict)
    | VRow (Some fields) values =>
        _dict <- keyed_loop true field_convs (Row_asDict fields values) [] ;;
        Ok (VDict _dict)
    | VTuple values | VRow None values =>
        _dict <- positional_loop field_names field_convs values 0 [] ;;
        Ok (VDict _dict)
    | _ => Raise AssertionError
    end.

Definition convert_array (element_conv : converter) : converter :=
  fun value =>
    match value with
    | VNone => Ok VNone
    | VList l | VArray l => l' <- mapM element_conv l ;; Ok (VList l')
    | _ => Raise AssertionError
    end.

Definition convert_map (key_conv value_conv : converter) : converter :=
  fun value =>
    match value with
    | VNone => Ok VNone
    | VDict items =>
        _tuples <- mapM (fun kv =>
                           k <- key_conv (fst kv) ;;
                           v <- value_conv (snd kv) ;;
                           Ok (VTuple [k; v])) items ;;
        Ok (VList _tuples)
    | _ => Raise AssertionError
    end.

Definition convert_binary : converter :=
  fun value =>
    match value with
    | VNone => Ok VNone
    | VBytes b | VBytearray b => Ok (VBytes b)
    | _ => Raise AssertionError
    end.

Definition convert_decimal : converter :=
  fun value =>
    match value with
    | VNone => Ok VNone
    | VDecimal d => Ok (if is_nan d then VNone else value)
    | _ => Raise AssertionError
    end.

(** The types [convert_string] accepts. *)
Definition is_atomic (value : pyval) : bool :=
  match value with
  | VBool _ | VInt _ | VFloat _ | VStr _ | VBytes _ | VBytearray _
  | VDecimal _ | VDate _ | VDatetime _ | VTimedelta _ => true
  | _ => false
  end.

Section Builtins.
Variable local_utcoffset : Z -> result Z.
Variable str_other : pyval -> string.

Definition convert_timestample : converter :=
  fun value =>
    match value with
    | VNone => Ok VNone
    | VDatetime d =>
        d' <- astimezone_utc local_utcoffset d ;;
        Ok (VDatetime d')
    | _ => Raise AssertionError
    end.

Definition convert_string : converter :=
  fun value =>
    match value with
    | VNone => Ok VNone
    | _ =>
        assert (is_atomic value) ;;;
        match value with
        | VBool _ => Ok (VStr (py_lower (py_str str_other value)))
        | _ => Ok (VStr (py_str str_other value))
        end
    end.

Fixpoint _create_converter (dt : DataType) : converter :=
  if negb (_need_converter dt) then fun value => Ok value
  else
    match dt with
    | NullType => fun value => Ok VNone
    | StructType fields =>
        let field_names := fieldNames fields in
        let field_convs :=
          build_convs (fun field => _create_converter (dataType field)) fields in
        convert_struct field_names field_convs
    | ArrayType elementType =>
        let element_conv := _create_converter elementType in
        convert_array element_conv
    | MapType keyType valueType =>
        let key_conv := _create_converter keyType in
        let value_conv := _create_converter valueType in
        convert_map key_conv value_conv
    | BinaryType => convert_binary
    | TimestampType | TimestampNTZType => convert_timestample
    | DecimalType _ _ => convert_decimal
    | StringType => convert_string
    | _ => fun value => Ok value
    end.

(** One pass of the loop body of [convert] (lines 245-260). *)
Definition convert_item (column_names : list string)
    (column_convs : dict converter) (item : pyval) : result pyval :=
  match item with
  | VDict items =>
      _dict <- keyed_loop false column_convs items [] ;;
      Ok (VDict _dict)
  | VRow (Some fields) values =>
      _dict <- keyed_loop false column_convs (Row_asDict fields values) [] ;;
      Ok (VDict _dict)
  | _ =>
      values <- py_iter item ;;
      _dict <- positional_loop column_names column_convs values 0 [] ;;
      Ok (VDict _dict)
  end.

(** The collaborators of [convert]: [to_arrow_schema] of
    [pyspark.sql.connect.types], from the logical schema to the Arrow
    schema, and [pa.Table.from_pylist] of pyarrow, from the keyed mappings
    and the Arrow schema to the table. *)
Context {pa_Schema pa_Table : Type}.
Variable to_arrow_schema : DataType -> result pa_Schema.
Variable from_pylist : list pyval -> pa_Schema -> result pa_Table.

(** [convert(data, schema)]; [schema] is [None] for an absent schema. *)
Definition convert (data : pyval) (schema : option DataType)
  : result pa_Table :=
  assert (match data with VList (_ :: _) => true | _ => false end) ;;;
  assert (match schema with Some (StructType _) => true | _ => false end) ;;;
  match data, schema with
  | VList data, Some (StructType fields) =>
      pa_schema <- to_arrow_schema (StructType fields) ;;
      let column_names := fieldNames fields in
      let column_convs :=
        build_convs (fun field => _create_converter (dataType field)) fields in
      pylist <- mapM (convert_item column_names column_convs) data ;;
      from_pylist pylist pa_schema
  | _, _ => Raise AssertionError
  end.
End Builtins.

End LocalDataToArrowConversion.

(* ================================================================== *)
(** * ArrowTableToRowsConversion *)
(* ================================================================== *)

(** A [pa.Table], as [convert] reads it: the column names, and per column
    the cells that [column.to_pylist()] yields. *)
Record Table : Type := mkTable {
  column_names : list string;
  columns : list (list pyval);
  num_rows : nat
}.

Definition num_columns (table : Table) : nat := List.length (columns table).

(** Every column has a name and holds one cell per row. *)
Definition table_wf (table : Table) : Prop :=
  List.length (column_names table) = List.length (columns table) /\
  Forall (fun column => List.length column = num_rows table) (columns table).

Module ArrowTableToRowsConversion.

Fixpoint _need_converter (dt : DataType) : bool :=
  match dt with
  | NullType => true
  | StructType _ => true
  | ArrayType elementType => _need_converter elementType
  | MapType _ _ => true
  | BinaryType => true
  | TimestampType | TimestampNTZType => true
  | _ => false
  end.

(** The loop of [convert_struct] (lines 319-321). *)
Fixpoint keyed_loop (field_convs : dict converter)
    (items : list (pyval * pyval)) (_dict : dict pyval)
  : result (dict pyval) :=
  match items with
  | [] => Ok _dict
  | (k, v) :: rest =>
      assert (is_str k) ;;;
      conv <- getitem field_convs k ;;
      r <- conv v ;;
      _dict' <- setitem _dict k r ;;
      keyed_loop field_convs rest _dict'
  end.

Definition convert_struct (field_convs : dict converter) (need_conv : bool)
  : converter :=
  fun value =>
    match value with
    | VNone => Ok Row_empty
    | VDict items =>
        if need_conv then
          _dict <- keyed_loop field_convs items [] ;;
          Row_kwargs _dict
        else Row_kwargs items
    | _ => Raise AssertionError
    end.

Definition convert_array (element_conv : converter) : converter :=
  fun value =>
    match value with
    | VNone => Ok VNone
    | VList l => l' <- mapM element_conv l ;; Ok (VList l')
    | _ => Raise AssertionError
    end.

(** [isinstance(t, tuple) and len(t) == 2] *)
Definition is_pair (t : pyval) : bool :=
  match t with
  | VTuple [_; _] | VRow _ [_; _] => true
  | _ => false
  end.

(** [t[i]] for a tuple [t] *)
Definition tuple_item (t : pyval) (i : nat) : result pyval :=
  match t with
  | VTuple l | VRow _ l => list_index l i
  | _ => Raise TypeError
  end.

(** [dict((key_conv(t[0]), value_conv(t[1])) for t in value)]: each pair
    is converted and then stored before the next one is looked at. *)
Fixpoint dict_of_converted (key_conv value_conv : converter)
    (value : list pyval) (d : dict pyval) : result (dict pyval) :=
  match value with
  | [] => Ok d
  | t :: rest =>
      t0 <- tuple_item t 0 ;;
      k <- key_conv t0 ;;
      t1 <- tuple_item t 1 ;;
      v <- value_conv t1 ;;
      d' <- setitem d k v ;;
      dict_of_converted key_conv value_conv rest d'
  end.

Definition convert_map (key_conv value_conv : converter) : converter :=
  fun value =>
    match value with
    | VNone => Ok VNone
    | VList l =>
        assert (forallb is_pair l) ;;;
        d <- dict_of_converted key_conv value_conv l [] ;;
        Ok (VDict d)
    | _ => Raise AssertionError
    end.

Definition convert_binary : converter :=
  fun value =>
    match value with
    | VNone => Ok VNone
    | VBytes b => Ok (VBytearray b)
    | _ => Raise AssertionError
    end.

Definition convert_timestample : converter :=
  fun value =>
    match value with
    | VNone => Ok VNone
    | VDatetime d =>
        match tz d with
        | Some _ => Ok (VDatetime (replace_tzinfo_None d))
        | None => Ok value
        end
    | _ => Raise AssertionError
    end.

Fixpoint _create_converter (dt : DataType) : converter :=
  if negb (_need_converter dt) then fun value => Ok value
  else
    match dt with
    | NullType => fun value => Ok VNone
    | StructType fields =>
        let field_convs :=
          build_convs (fun f => _create_converter (dataType f)) fields in
        let need_conv :=
          existsb (fun f => _need_converter (dataType f)) fields in
        convert_struct field_convs need_conv
    | ArrayType elementType =>
        let element_conv := _create_converter elementType in
        convert_array element_conv
    | MapType keyType valueType =>
        let key_conv := _create_converter keyType in
        let value_conv := _create_converter valueType in
        convert_map key_conv value_conv
    | BinaryType => convert_binary
    | TimestampType | TimestampNTZType => convert_timestample
    | _ => fun value => Ok value
    end.

(** The comprehension of line 403, for row [i]. *)
Definition convert_row (field_converters : list converter)
    (columnar_data : list (list pyval)) (table : Table) (i : nat)
  : result (list pyval) :=
  mapM (fun j =>
          conv <- list_index field_converters j ;;
          column <- list_index columnar_data j ;;
          cell <- list_index column i ;;
          conv cell)
       (seq 0 (num_columns table)).

(** [convert(table, schema)]; [schema] is [None] for an absent schema.
    The argument is a table by its type, which is what the first assertion
    checks. *)
Definition convert (table : Table) (schema : option DataType)
  : result (list pyval) :=
  assert (match schema with Some (StructType _) => true | _ => false end) ;;;
  match schema with
  | Some (StructType fields) =>
      let field_converters :=
        map (fun f => _create_converter (dataType f)) fields in
      let columnar_data := columns table in
      mapM (fun i =>
              values <- convert_row field_converters columnar_data table i ;;
              Ok (_create_row (column_names table) values))
           (seq 0 (num_rows table))
  | _ => Raise AssertionError
  end.

End ArrowTableToRowsConversion.

Module Out := LocalDataToArrowConversion.
Module In := ArrowTableToRowsConversion.

(* ================================================================== *)
(** * Notions used in the statements *)
(* ================================================================== *)

(** A named value as a dictionary item. *)
Definition str_item {V : Type} (nv : string * V) : pyval * V :=
  (VStr (fst nv), snd nv).

(** The outcome of converting the named values of a record, one after the
    other: each value goes through the converter registered under its
    name. *)
Definition convert_fields (convs : dict converter) (nvs : list (string * pyval))
  : result (dict pyval) :=
  mapM (fun nv =>
          conv <- getitem convs (VStr (fst nv)) ;;
          r <- conv (snd nv) ;;
          Ok (VStr (fst nv), r)) nvs.

(** Two outcomes of building a keyed mapping agree: both fail, or both
    return mappings with the same items, possibly stored in another
    order. *)
Definition same_outcome (r1 r2 : result (dict pyval)) : Prop :=
  match r1, r2 with
  | Ok d1, Ok d2 => Permutation d1 d2
  | Raise _, Raise _ => True
  | _, _ => False
  end.

(** The same for the outcome of a struct converter. *)
Definition same_mapping (r1 r2 : result pyval) : Prop :=
  match r1, r2 with
  | Ok (VDict d1), Ok (VDict d2) => Permutation d1 d2
  | Raise _, Raise _ => True
  | _, _ => False
  end.

(** A key with its value as the pair an Arrow map cell holds. *)
Definition pair_tuple (kv : pyval * pyval) : pyval :=
  VTuple [fst kv; snd kv].

(** A well-formed [dict]: every key can be hashed and no two keys are
    equal. *)
Fixpoint dict_wf {V : Type} (d : dict V) : bool :=
  match d with
  | [] => true
  | (k, _) :: d' =>
      py_hashable k
      && forallb (fun kv => negb (key_eqb k (fst kv))) d'
      && dict_wf d'
  end.


(** The struct, map and array types whose converter looks at the shape of
    its input: a struct or map type always, an array type when, by the
    direction's [_need_converter], its elements need conversion. *)
Definition checks_shape (need : DataType -> bool) (dt : DataType) : bool :=
  match dt with
  | StructType _ | MapType _ _ => true
  | ArrayType elementType => need elementType
  | _ => false
  end.

(** Every key of the mapping is one of the names. *)
Definition keys_among (names : list string) (d : dict pyval) : Prop :=
  Forall (fun kv => exists n, In n names /\ fst kv = VStr n) d.

(** A keyed mapping all of whose keys are among the names. *)
Definition is_keyed_row (names : list string) (row : pyval) : Prop :=
  match row with
  | VDict d => keys_among names d
  | _ => False
  end.

(** The cell a keyed mapping holds for the column [n]; a column the
    mapping lacks reads as null. *)
Definition pylist_cell (n : string) (row : pyval) : pyval :=
  match row with
  | VDict items =>
      match dict_get (VStr n) items with
      | Some v => v
      | None => VNone
      end
  | _ => VNone
  end.

(** The table holds the keyed mappings column by column, one column per
    name, the cells as they are in the mappings. *)
Definition stores_pylist (names : list string) (pylist : list pyval)
    (table : Table) : Prop :=
  column_names table = names /\
  num_rows table = List.length pylist /\
  columns table = map (fun n => map (pylist_cell n) pylist) names.

(** No map type occurs in the type. *)
Fixpoint map_free (dt : DataType) : bool :=
  match dt with
  | MapType _ _ => false
  | ArrayType elementType => map_free elementType
  | StructType fields => forallb (fun f => map_free (dataType f)) fields
  | _ => true
  end.

(** A mapping whose entries convert to themselves under the converters of
    their keys. *)
Definition settled (convs : dict converter) (d : dict pyval) : Prop :=
  dict_wf d = true /\
  Forall (fun kr => is_str (fst kr) = true /\
                    exists c, getitem convs (fst kr) = Ok c /\
                              c (snd kr) = Ok (snd kr)) d.

(* ================================================================== *)
(** * Key equality is a partial equivalence *)
(* ================================================================== *)














(* ================================================================== *)
(** * Dictionary lemmas *)
(* ================================================================== *)

Section DictFacts.
Context {V : Type}.
Implicit Types (d : dict V) (k : pyval) (v : V).



(** A store under a key the dictionary does not hold appends. *)
Lemma dict_put_fresh k v d :
  dict_get k d = None -> dict_put k v d = d ++ [(k, v)].
Proof.
  induction d as [|[k0 v0] d IH]; simpl.
  - reflexivity.
  - destruct (key_eqb k0 k); [discriminate|]. intros H. now rewrite IH.
Qed.

(** A store under a key the dictionary holds keeps the length. *)
Lemma dict_put_present_length k v d :
  dict_get k d <> None -> List.length (dict_put k v d) = List.length d.
Proof.
  induction d as [|[k0 v0] d IH]; simpl.
  - congruence.
  - destruct (key_eqb k0 k); simpl; [reflexivity|]. intros H. now rewrite IH.
Qed.
End DictFacts.

(* ================================================================== *)
(** * Comprehensions and loops *)
(* ================================================================== *)

Lemma mapM_app {A B} (f : A -> result B) l1 l2 :
  mapM f (l1 ++ l2) =
  (r1 <- mapM f l1 ;; r2 <- mapM f l2 ;; Ok (r1 ++ r2)).
Proof.
  induction l1 as [|a l1 IH]; simpl.
  - destruct (mapM f l2); reflexivity.
  - destruct (f a); simpl; [|reflexivity].
    rewrite IH. destruct (mapM f l1); simpl; [|reflexivity].
    destruct (mapM f l2); reflexivity.
Qed.

Lemma mapM_length {A B} (f : A -> result B) l r :
  mapM f l = Ok r -> List.length r = List.length l.
Proof.
  revert r. induction l as [|a l IH]; simpl; intros r H.
  - now inversion H.
  - destruct (f a); simpl in H; [|discriminate].
    destruct (mapM f l) as [bs|]; simpl in H; [|discriminate].
    inversion H; subst. simpl. now rewrite (IH bs).
Qed.

(** A comprehension all of whose elements convert returns the converted
    elements, in order. *)
Lemma mapM_Forall2 {A B} (f : A -> result B) l r :
  Forall2 (fun a b => f a = Ok b) l r -> mapM f l = Ok r.
Proof.
  induction 1; simpl; [reflexivity|]. now rewrite H, IHForall2.
Qed.

(** A comprehension one of whose elements raises raises. *)
Lemma mapM_raise {A B} (f : A -> result B) l a e :
  In a l -> f a = Raise e -> exists e', mapM f l = Raise e'.
Proof.
  induction l as [|x l IH]; simpl; [contradiction|].
  intros [->|Hin] He.
  - rewrite He. now exists e.
  - destruct (f x); simpl; [|eauto].
    destruct (IH Hin He) as [e' ->]. simpl. eauto.
Qed.

Lemma mapM_ext_in {A B} (f g : A -> result B) l :
  (forall a, In a l -> f a = g a) -> mapM f l = mapM g l.
Proof.
  induction l as [|x l IH]; simpl; intros H; [reflexivity|].
  rewrite (H x) by now left. rewrite IH; [reflexivity|].
  intros a Ha. apply H. now right.
Qed.

Lemma key_eqb_str a b : key_eqb (VStr a) (VStr b) = String.eqb a b.
Proof. reflexivity. Qed.

Lemma dict_get_app_None {V} k (d1 d2 : dict V) :
  dict_get k d1 = None -> dict_get k (d1 ++ d2) = dict_get k d2.
Proof.
  induction d1 as [|[k0 v0] d1 IH]; simpl; [reflexivity|].
  destruct (key_eqb k0 k); [discriminate | exact IH].
Qed.

(** A name that is not among the items is not a key. *)
Lemma dict_get_str_items_None {V} n (nvs : list (string * V)) :
  ~ In n (map fst nvs) -> dict_get (VStr n) (map str_item nvs) = None.
Proof.
  induction nvs as [|[n0 v0] nvs IH]; simpl; intros H; [reflexivity|].
  destruct (String.eqb_spec n0 n) as [->|_].
  - exfalso. apply H. now left.
  - apply IH. intros Hin. apply H. now right.
Qed.

Lemma dict_get_str_items {V} n (v : V) (nvs : list (string * V)) :
  NoDup (map fst nvs) -> In (n, v) nvs ->
  dict_get (VStr n) (map str_item nvs) = Some v.
Proof.
  induction nvs as [|[n0 v0] nvs IH]; simpl; intros Hnd Hin; [contradiction|].
  inversion Hnd as [|? ? Hnotin Hnd']; subst.
  destruct Hin as [Heq|Hin].
  - inversion Heq; subst. now rewrite String.eqb_refl.
  - destruct (String.eqb_spec n0 n) as [->|_]; [|now apply IH].
    exfalso. apply Hnotin. change n with (fst (n, v)). now apply in_map.
Qed.

(** Storing named values under distinct fresh names appends them. *)
Lemma fold_put_str_fresh {V} (nvs : list (string * V)) (d : dict V) :
  NoDup (map fst nvs) ->
  (forall n, In n (map fst nvs) -> dict_get (VStr n) d = None) ->
  fold_left (fun d nv => dict_put (VStr (fst nv)) (snd nv) d) nvs d
  = d ++ map str_item nvs.
Proof.
  revert d. induction nvs as [|[n v] nvs IH]; simpl; intros d Hnd Hfresh.
  - now rewrite app_nil_r.
  - inversion Hnd as [|? ? Hnotin Hnd']; subst.
    rewrite dict_put_fresh by (apply Hfresh; now left).
    rewrite IH; [now rewrite <- app_assoc| assumption |].
    intros n' Hn'. rewrite dict_get_app_None by (apply Hfresh; now right).
    simpl. destruct (String.eqb_spec n n') as [->|_]; [contradiction | reflexivity].
Qed.

(** With distinct field names the converters are registered in field
    order, one per field. *)
Lemma build_convs_NoDup (create : StructField -> converter) fields :
  NoDup (fieldNames fields) ->
  build_convs create fields =
  map str_item (map (fun f => (name f, create f)) fields).
Proof.
  intros Hnd. unfold build_convs.
  assert (G : forall d,
             fold_left (fun d f => dict_put (VStr (name f)) (create f) d) fields d
             = fold_left (fun d nv => dict_put (VStr (fst nv)) (snd nv) d)
                         (map (fun f => (name f, create f)) fields) d).
  { clear Hnd. induction fields as [|g fs IH]; simpl; intros d; [reflexivity|].
    apply IH. }
  rewrite G, fold_put_str_fresh.
  - reflexivity.
  - now rewrite map_map.
  - reflexivity.
Qed.

(** With distinct field names, every field finds its own converter. *)
Lemma build_convs_get (create : StructField -> converter) fields f :
  NoDup (fieldNames fields) -> In f fields ->
  dict_get (VStr (name f)) (build_convs create fields) = Some (create f).
Proof.
  intros Hnd Hin. rewrite build_convs_NoDup by assumption.
  apply dict_get_str_items.
  - now rewrite map_map.
  - now apply (in_map (fun f => (name f, create f))).
Qed.

(** A name that no field bears has no converter. *)
Lemma build_convs_get_None (create : StructField -> converter) fields n :
  NoDup (fieldNames fields) -> ~ In n (fieldNames fields) ->
  dict_get (VStr n) (build_convs create fields) = None.
Proof.
  intros Hnd Hin. rewrite build_convs_NoDup by assumption.
  apply dict_get_str_items_None. now rewrite map_map.
Qed.

(** The keyed loop over items with distinct names that the mapping under
    construction does not hold yet: each item is converted and appended. *)
Lemma keyed_loop_str_items check convs nvs acc :
  NoDup (map fst nvs) ->
  (forall n, In n (map fst nvs) -> dict_get (VStr n) acc = None) ->
  Out.keyed_loop check convs (map str_item nvs) acc =
  (rs <- convert_fields convs nvs ;; Ok (acc ++ rs)).
Proof.
  revert acc. induction nvs as [|[n v] nvs IH]; intros acc Hnd Hfresh.
  - simpl. now rewrite app_nil_r.
  - inversion Hnd as [|? ? Hnotin Hnd']; subst.
    cbn [map str_item fst snd Out.keyed_loop convert_fields mapM].
    rewrite orb_true_r. cbn [assert bind].
    destruct (getitem convs (VStr n)) as [conv|]; cbn [bind]; [|reflexivity].
    destruct (conv v) as [r|]; cbn [bind]; [|reflexivity].
    unfold setitem. cbn [py_hashable bind].
    rewrite dict_put_fresh by (apply Hfresh; now left).
    rewrite IH; [| assumption |].
    + unfold convert_fields.
      destruct (mapM _ nvs) as [rs|]; cbn [bind]; [|reflexivity].
      now rewrite <- app_assoc.
    + intros n' Hn'. rewrite dict_get_app_None by (apply Hfresh; now right).
      simpl. destruct (String.eqb_spec n n') as [->|_]; [contradiction | reflexivity].
Qed.

(** The positional loop at index [length pre] of the names [pre ++ post],
    over no more values than [post] has names. *)
Lemma positional_loop_combine pre post convs vs acc :
  NoDup post ->
  (forall n, In n post -> dict_get (VStr n) acc = None) ->
  (List.length vs <= List.length post)%nat ->
  Out.positional_loop (pre ++ post) convs vs (List.length pre) acc =
  (rs <- convert_fields convs (combine post vs) ;; Ok (acc ++ rs)).
Proof.
  revert pre post acc. induction vs as [|v vs IH]; intros pre post acc Hnd Hfresh Hlen.
  - destruct post; simpl; now rewrite app_nil_r.
  - destruct post as [|n post]; [simpl in Hlen; lia|].
    inversion Hnd as [|? ? Hnotin Hnd']; subst.
    cbn [combine Out.positional_loop convert_fields mapM fst snd].
    unfold list_index at 1.
    rewrite nth_error_app2, Nat.sub_diag by lia. cbn [nth_error bind].
    destruct (getitem convs (VStr n)) as [conv|]; cbn [bind]; [|reflexivity].
    destruct (conv v) as [r|]; cbn [bind]; [|reflexivity].
    unfold setitem. cbn [py_hashable bind].
    rewrite dict_put_fresh by (apply Hfresh; now left).
    replace (pre ++ n :: post) with ((pre ++ [n]) ++ post) by now rewrite <- app_assoc.
    replace (S (List.length pre)) with (List.length (pre ++ [n]))
      by (rewrite length_app; simpl; lia).
    rewrite IH; [| assumption | | simpl in Hlen; lia].
    + unfold convert_fields.
      destruct (mapM _ (combine post vs)) as [rs|]; cbn [bind]; [|reflexivity].
      now rewrite <- app_assoc.
    + intros n' Hn'. rewrite dict_get_app_None by (apply Hfresh; now right).
      simpl. destruct (String.eqb_spec n n') as [->|_]; [contradiction | reflexivity].
Qed.

(** The positional loop over more values than names are left fails. *)
Lemma positional_loop_too_many pre post convs vs acc :
  (List.length post < List.length vs)%nat ->
  exists e, Out.positional_loop (pre ++ post) convs vs (List.length pre) acc = Raise e.
Proof.
  revert pre post acc. induction vs as [|v vs IH]; intros pre post acc Hlen.
  - simpl in Hlen. lia.
  - cbn [Out.positional_loop]. unfold list_index at 1.
    destruct post as [|n post].
    + rewrite app_nil_r.
      rewrite (proj2 (nth_error_None pre (List.length pre))) by lia.
      cbn [bind]. eauto.
    + rewrite nth_error_app2, Nat.sub_diag by lia. cbn [nth_error bind].
      destruct (getitem convs (VStr n)) as [conv|]; cbn [bind]; [|eauto].
      destruct (conv v) as [r|]; cbn [bind]; [|eauto].
      unfold setitem. cbn [py_hashable bind].
      replace (pre ++ n :: post) with ((pre ++ [n]) ++ post) by now rewrite <- app_assoc.
      replace (S (List.length pre)) with (List.length (pre ++ [n]))
        by (rewrite length_app; simpl; lia).
      apply IH. simpl in Hlen. lia.
Qed.

Lemma NoDup_combine_fst {A B} (l : list A) (l' : list B) :
  NoDup l -> NoDup (map fst (combine l l')).
Proof.
  revert l'. induction l as [|a l IH]; intros [|b l'] Hnd; simpl; try constructor.
  - inversion Hnd; subst. intros Hin. apply in_map_iff in Hin.
    destruct Hin as [[a' b'] [Ha Hin]]. simpl in Ha. subst.
    apply in_combine_l in Hin. contradiction.
  - apply IH. now inversion Hnd.
Qed.

(** The mapping view of a row with distinct field names pairs each name
    with its value, in order. *)
Lemma Row_asDict_NoDup fields values :
  NoDup fields ->
  Row_asDict fields values = map str_item (combine fields values).
Proof.
  intros Hnd. unfold Row_asDict. rewrite fold_put_str_fresh.
  - reflexivity.
  - now apply NoDup_combine_fst.
  - reflexivity.
Qed.

Lemma same_outcome_trans r1 r2 r3 :
  same_outcome r1 r2 -> same_outcome r2 r3 -> same_outcome r1 r3.
Proof.
  destruct r1, r2, r3; simpl; try tauto. apply Permutation_trans.
Qed.

(** Converting the items of a record in another order yields the same
    items in that other order, or fails as well. *)
Lemma mapM_Permutation {A} (f : A -> result (pyval * pyval)) l l' :
  Permutation l l' -> same_outcome (mapM f l) (mapM f l').
Proof.
  induction 1.
  - simpl. constructor.
  - simpl. destruct (f x); simpl; [|exact I].
    destruct (mapM f l), (mapM f l'); simpl in *; try tauto.
    now constructor.
  - simpl. destruct (f x), (f y); simpl; try exact I.
    destruct (mapM f l); simpl; [|exact I]. apply perm_swap.
  - eapply same_outcome_trans; eassumption.
Qed.

(* ================================================================== *)
(** * Properties of the leaf converters *)
(* ================================================================== *)

(** A type that needs no conversion gets the identity converter. *)
Lemma outbound_identity lo so dt v :
  Out._need_converter dt = false -> Out._create_converter lo so dt v = Ok v.
Proof.
  intros H. destruct dt; simpl in *; try discriminate; try reflexivity.
  now rewrite H.
Qed.

Lemma inbound_identity dt v :
  In._need_converter dt = false -> In._create_converter dt v = Ok v.
Proof.
  intros H. destruct dt; simpl in *; try discriminate; try reflexivity.
  now rewrite H.
Qed.

(** Outbound, every converter maps [None] to [None]. *)
Lemma outbound_null_propagation lo so dt :
  Out._create_converter lo so dt VNone = Ok VNone.
Proof.
  destruct dt; simpl; try reflexivity.
  destruct (Out._need_converter dt); reflexivity.
Qed.

(** Inbound, every converter but the one of a struct maps [None] to
    [None]. *)
Lemma inbound_null_propagation dt :
  match dt with StructType _ => True | _ => In._create_converter dt VNone = Ok VNone end.
Proof.
  destruct dt; simpl; try reflexivity; try exact I.
  destruct (In._need_converter dt); reflexivity.
Qed.

(** C1: null propagation is claimed for every type in both directions, in
    particular for a struct inbound.  The inbound struct converter, given
    [None], returns the empty row record [Row()] instead, which is not
    [None]; every other converter of the module returns [None]. *)
Theorem inbound_struct_null_gives_empty_row :
  forall fields,
    In._create_converter (StructType fields) VNone = Ok Row_empty /\
    Row_empty <> VNone /\
    In._create_converter (StructType fields) VNone <> Ok VNone.
Proof.
  intros fields. simpl. repeat split; discriminate.
Qed.

(** What [astimezone] returns, when it returns: a reading within the
    calendar, in UTC, that [astimezone] leaves as it is. *)
Lemma astimezone_utc_Ok lo d d' :
  astimezone_utc lo d = Ok d' ->
  tz d' = Some timezone_utc /\
  in_calendar (wall d') = true /\
  astimezone_utc lo d' = Ok d'.
Proof.
  unfold astimezone_utc.
  destruct (match tz d with Some z => Ok (utcoffset z) | None => lo (wall d) end)
    as [offset|]; cbn [bind]; [|discriminate].
  destruct (in_calendar (wall d - offset)) eqn:E; [|discriminate].
  intros H. injection H as <-. cbn [tz wall utcoffset timezone_utc bind].
  rewrite Z.sub_0_r, E. repeat split.
Qed.





(** C8: outbound, a not-a-number decimal becomes [None] and any other
    decimal is returned unchanged; inbound, a decimal type needs no
    converter and every value passes through unchanged. *)
Theorem decimal_nan_to_null :
  forall lo so precision scale,
    (forall d, is_nan d = true ->
       Out._create_converter lo so (DecimalType precision scale) (VDecimal d)
       = Ok VNone) /\
    (forall d, is_nan d = false ->
       Out._create_converter lo so (DecimalType precision scale) (VDecimal d)
       = Ok (VDecimal d)) /\
    In._need_converter (DecimalType precision scale) = false /\
    (forall v, In._create_converter (DecimalType precision scale) v = Ok v).
Proof.
  intros lo so p s. repeat split; try reflexivity.
  - intros d H. simpl. now rewrite H.
  - intros d H. simpl. now rewrite H.
Qed.


Lemma decimal_nan_to_null_witness :
  Out._create_converter (fun _ => Ok 0) (fun _ => "") (DecimalType 10 2)
    (VDecimal (DNaN false)) = Ok VNone /\
  Out._create_converter (fun _ => Ok 0) (fun _ => "") (DecimalType 10 2)
    (VDecimal (DFinite false 314 (-2))) = Ok (VDecimal (DFinite false 314 (-2))).
Proof.
  destruct (decimal_nan_to_null (fun _ => Ok 0) (fun _ => "") 10 2) as (Hnan & Hval & _).
  split.
  - apply Hnan. reflexivity.
  - apply Hval. reflexivity.
Defined.

(* ================================================================== *)
(** * Struct values, outbound *)
(* ================================================================== *)

Lemma outbound_struct_unfold lo so fields v :
  Out._create_converter lo so (StructType fields) v =
  Out.convert_struct (fieldNames fields)
    (build_convs (fun field => Out._create_converter lo so (dataType field)) fields) v.
Proof. reflexivity. Qed.

Section OutboundConvert.
Context {pa_Schema pa_Table : Type}.
Variables (lo : Z -> result Z) (so : pyval -> string).
Variable to_arrow_schema : DataType -> result pa_Schema.
Variable from_pylist : list pyval -> pa_Schema -> result pa_Table.

Lemma outbound_convert_unfold fields item data :
  Out.convert lo so to_arrow_schema from_pylist
    (VList (item :: data)) (Some (StructType fields)) =
  (pa_schema <- to_arrow_schema (StructType fields) ;;
   pylist <- mapM (Out.convert_item (fieldNames fields)
                     (build_convs (fun field => Out._create_converter lo so (dataType field))
                                  fields))
                  (item :: data) ;;
   from_pylist pylist pa_schema).
Proof. reflexivity. Qed.

(** Within a batch, a row can be exchanged for one that converts alike. *)
Lemma outbound_convert_congr fields pre post item item' :
  (let convs :=
     build_convs (fun field => Out._create_converter lo so (dataType field)) fields in
   Out.convert_item (fieldNames fields) convs item
   = Out.convert_item (fieldNames fields) convs item') ->
  Out.convert lo so to_arrow_schema from_pylist
    (VList (pre ++ item :: post)) (Some (StructType fields)) =
  Out.convert lo so to_arrow_schema from_pylist
    (VList (pre ++ item' :: post)) (Some (StructType fields)).
Proof.
  intros H.
  assert (G : forall f : pyval -> result pyval, f item = f item' ->
              mapM f (pre ++ item :: post) = mapM f (pre ++ item' :: post)).
  { intros f Hf. rewrite !mapM_app. simpl. now rewrite Hf. }
  destruct pre as [|x pre]; cbn [app] in *; rewrite !outbound_convert_unfold.
  - now rewrite (G _ H).
  - now rewrite (G _ H).
Qed.

(** A batch one of whose rows fails to convert fails. *)
Lemma outbound_convert_raise fields pre post item e :
  Out.convert_item (fieldNames fields)
    (build_convs (fun field => Out._create_converter lo so (dataType field)) fields)
    item = Raise e ->
  exists e',
    Out.convert lo so to_arrow_schema from_pylist
      (VList (pre ++ item :: post)) (Some (StructType fields)) = Raise e'.
Proof.
  intros He.
  assert (Hin : In item (pre ++ item :: post))
    by (apply in_or_app; right; now left).
  destruct (mapM_raise _ _ _ _ Hin He) as [e' He'].
  destruct pre as [|x pre]; cbn [app] in *; rewrite outbound_convert_unfold;
    destruct (to_arrow_schema _); cbn [bind]; eauto; rewrite He'; cbn [bind]; eauto.
Qed.
End OutboundConvert.

Lemma combine_fst_snd {A B} (l : list (A * B)) :
  combine (map fst l) (map snd l) = l.
Proof.
  induction l as [|[a b] l IH]; simpl; [reflexivity | now rewrite IH].
Qed.

(** The three loops of [convert_struct] on one record. *)
Lemma struct_positional names convs vs :
  NoDup names -> (List.length vs <= List.length names)%nat ->
  Out.positional_loop names convs vs 0 [] = convert_fields convs (combine names vs).
Proof.
  intros Hnd Hlen.
  pose proof (positional_loop_combine [] names convs vs [] Hnd
                (fun _ _ => eq_refl) Hlen) as E.
  cbn [app List.length] in E. rewrite E.
  destruct (convert_fields _ _); reflexivity.
Qed.

Lemma struct_keyed check convs nvs :
  NoDup (map fst nvs) ->
  Out.keyed_loop check convs (map str_item nvs) [] = convert_fields convs nvs.
Proof.
  intros Hnd. rewrite keyed_loop_str_items; auto.
  destruct (convert_fields _ _); reflexivity.
Qed.

(** C2: take a struct type with distinct field names and one value per
    field (or per leading field).  The record given as the sequence of the
    values in field order, as the mapping from field name to value and as
    the named row convert to the same outcome (the same keyed mapping, or
    the same failure), as a struct value and as a row of a batch passed to
    [convert].  A mapping or a named row that lists the fields in another
    order converts to the same mapping, its items stored in that other
    order, or fails as well. *)
Theorem struct_shape_equivalence :
  forall lo so (pa_Schema pa_Table : Type)
         (to_arrow_schema : DataType -> result pa_Schema)
         (from_pylist : list pyval -> pa_Schema -> result pa_Table)
         fields vs nvs,
    NoDup (fieldNames fields) ->
    (List.length vs <= List.length fields)%nat ->
    Permutation nvs (combine (fieldNames fields) vs) ->
    let conv := Out._create_converter lo so (StructType fields) in
    let convert := Out.convert lo so to_arrow_schema from_pylist in
    let schema := Some (StructType fields) in
    let keyed := VDict (map str_item (combine (fieldNames fields) vs)) in
    let named := VRow (Some (fieldNames fields)) vs in
    conv keyed = conv (VTuple vs) /\
    conv named = conv (VTuple vs) /\
    same_mapping (conv (VDict (map str_item nvs))) (conv (VTuple vs)) /\
    same_mapping (conv (VRow (Some (map fst nvs)) (map snd nvs))) (conv (VTuple vs)) /\
    (forall pre post,
        convert (VList (pre ++ keyed :: post)) schema
        = convert (VList (pre ++ VTuple vs :: post)) schema /\
        convert (VList (pre ++ named :: post)) schema
        = convert (VList (pre ++ VTuple vs :: post)) schema).
Proof.
  intros lo so pa_Schema pa_Table to_arrow_schema from_pylist
         fields vs nvs Hnd Hlen Hperm conv convert schema keyed named.
  assert (Hlen' : (List.length vs <= List.length (fieldNames fields))%nat)
    by (unfold fieldNames; rewrite length_map; lia).
  assert (Hnd1 : NoDup (map fst (combine (fieldNames fields) vs)))
    by now apply NoDup_combine_fst.
  assert (Hnd2 : NoDup (map fst nvs)).
  { eapply Permutation_NoDup; [|exact Hnd1].
    apply Permutation_map. now apply Permutation_sym. }
  assert (Hpos : forall convs,
             Out.positional_loop (fieldNames fields) convs vs 0 []
             = convert_fields convs (combine (fieldNames fields) vs))
    by (intros; now apply struct_positional).
  assert (Hsame : forall convs,
             same_mapping
               (_dict <- convert_fields convs nvs ;; Ok (VDict _dict))
               (_dict <- convert_fields convs (combine (fieldNames fields) vs) ;;
                Ok (VDict _dict))).
  { intros convs.
    pose proof (mapM_Permutation
                  (fun nv => c <- getitem convs (VStr (fst nv)) ;;
                             r <- c (snd nv) ;; Ok (VStr (fst nv), r))
                  _ _ Hperm) as P.
    unfold convert_fields.
    destruct (mapM _ nvs), (mapM _ (combine _ vs)); simpl in *; tauto. }
  unfold conv, keyed, named. rewrite !outbound_struct_unfold.
  unfold Out.convert_struct.
  rewrite !Row_asDict_NoDup by assumption.
  rewrite combine_fst_snd, !struct_keyed, Hpos by assumption.
  repeat split; try reflexivity; try apply Hsame.
  - apply outbound_convert_congr. intros convs.
    unfold Out.convert_item. cbn [py_iter bind].
    now rewrite struct_keyed, Hpos by assumption.
  - apply outbound_convert_congr. intros convs.
    unfold Out.convert_item. cbn [py_iter bind].
    now rewrite Row_asDict_NoDup, struct_keyed, Hpos by assumption.
Qed.

Lemma struct_shape_equivalence_witness :
  let fields := [mkStructField "name" StringType true;
                 mkStructField "scores" (ArrayType IntegerType) true] in
  let conv := Out._create_converter (fun _ => Ok 0) (fun _ => "") (StructType fields) in
  same_mapping
    (conv (VDict [(VStr "scores", VList [VInt 1]); (VStr "name", VBool true)]))
    (conv (VTuple [VBool true; VList [VInt 1]])).
Proof.
  intros fields conv.
  refine (proj1 (proj2 (proj2
    (struct_shape_equivalence (fun _ => Ok 0) (fun _ => "") unit (list pyval)
       (fun _ => Ok tt) (fun pylist _ => Ok pylist) fields
       [VBool true; VList [VInt 1]]
       [("scores", VList [VInt 1]); ("name", VBool true)] _ _ _)))).
  - repeat constructor; simpl; intuition discriminate.
  - simpl. lia.
  - apply perm_swap.
Defined.

(** Registered converters applied to the values of the leading fields. *)
Lemma convert_fields_combine convs (create : StructField -> converter) fs vs :
  (forall f, In f fs -> dict_get (VStr (name f)) convs = Some (create f)) ->
  convert_fields convs (combine (map name fs) vs) =
  mapM (fun fv => r <- create (fst fv) (snd fv) ;; Ok (VStr (name (fst fv)), r))
       (combine fs vs).
Proof.
  revert vs. induction fs as [|f fs IH]; intros vs H; [reflexivity|].
  destruct vs as [|v vs]; [reflexivity|].
  cbn [map combine convert_fields mapM fst snd].
  unfold getitem at 1. cbn [py_hashable]. rewrite (H f) by now left. cbn [bind].
  destruct (create f v); cbn [bind]; [|reflexivity].
  unfold convert_fields in IH. rewrite IH; [reflexivity|].
  intros g Hg. apply H. now right.
Qed.

Lemma mapM_combine_results (create : StructField -> converter) fs vs rs :
  Forall2 (fun fv r => create (fst fv) (snd fv) = Ok r) (combine fs vs) rs ->
  mapM (fun fv => r <- create (fst fv) (snd fv) ;; Ok (VStr (name (fst fv)), r))
       (combine fs vs)
  = Ok (combine (map VStr (map name fs)) rs).
Proof.
  revert vs rs. induction fs as [|f fs IH]; intros vs rs H.
  - simpl in H. inversion H. reflexivity.
  - destruct vs as [|v vs]; simpl in H; inversion H; subst; [reflexivity|].
    cbn [combine mapM map]. simpl in H2. cbn [fst snd]. rewrite H2. cbn [bind].
    now rewrite (IH vs l').
Qed.

(** A mapping that pairs leading names with values holds no later name. *)
Lemma dict_get_combine_None {V} n names (rs : list V) :
  ~ In n (firstn (List.length rs) names) ->
  dict_get (VStr n) (combine (map VStr names) rs) = None.
Proof.
  revert rs. induction names as [|m names IH]; intros [|r rs] H; try reflexivity.
  simpl in *. destruct (String.eqb_spec m n) as [->|_].
  - exfalso. apply H. now left.
  - apply IH. intros Hin. apply H. now right.
Qed.

Lemma NoDup_skipn_not_firstn {A} (l : list A) k a :
  NoDup l -> In a (skipn k l) -> ~ In a (firstn k l).
Proof.
  intros Hnd Hs Hf. rewrite <- (firstn_skipn k l) in Hnd.
  revert Hnd Hs Hf. generalize (firstn k l) (skipn k l). intros l1 l2.
  induction l1 as [|x l1 IH]; simpl; intros Hnd Hs Hf; [contradiction|].
  inversion Hnd; subst. destruct Hf as [->|Hf].
  - apply H1. apply in_or_app. now right.
  - now apply IH.
Qed.

(** C9: outbound, a positional value (a tuple given for a struct type, or
    as a row of a batch) with no more values than the type has fields, each
    value converting under its field's type, is converted without error to
    the keyed mapping of the leading fields; it has one item per value and
    holds no trailing field.  A positional value with more values than the
    type has fields fails. *)
Theorem positional_arity :
  forall lo so (pa_Schema pa_Table : Type)
         (to_arrow_schema : DataType -> result pa_Schema)
         (from_pylist : list pyval -> pa_Schema -> result pa_Table)
         fields vs,
    let conv := Out._create_converter lo so (StructType fields) in
    let convert := Out.convert lo so to_arrow_schema from_pylist in
    let schema := Some (StructType fields) in
    (forall rs,
        NoDup (fieldNames fields) ->
        (List.length vs <= List.length fields)%nat ->
        Forall2 (fun fv r =>
                   Out._create_converter lo so (dataType (fst fv)) (snd fv) = Ok r)
                (combine fields vs) rs ->
        let d := combine (map VStr (fieldNames fields)) rs in
        conv (VTuple vs) = Ok (VDict d) /\
        convert (VList [VTuple vs]) schema
        = (pa_schema <- to_arrow_schema (StructType fields) ;;
           from_pylist [VDict d] pa_schema) /\
        List.length d = List.length vs /\
        (forall f, In f (skipn (List.length vs) fields) ->
                   dict_get (VStr (name f)) d = None)) /\
    ((List.length fields < List.length vs)%nat ->
     (exists e, conv (VTuple vs) = Raise e) /\
     (exists e, convert (VList [VTuple vs]) schema = Raise e)).
Proof.
  intros lo so pa_Schema pa_Table to_arrow_schema from_pylist fields vs
         conv convert schema.
  split.
  - intros rs Hnd Hlen Hconv d.
    set (create := fun field => Out._create_converter lo so (dataType field)).
    assert (Hloop : Out.positional_loop (fieldNames fields)
                      (build_convs create fields) vs 0 [] = Ok d).
    { rewrite struct_positional; auto.
      - unfold fieldNames. rewrite (convert_fields_combine _ create).
        + now apply mapM_combine_results.
        + intros f Hf. now apply build_convs_get.
      - unfold fieldNames. now rewrite length_map. }
    assert (Hrs : List.length rs = List.length vs).
    { apply Forall2_length in Hconv. rewrite length_combine in Hconv. lia. }
    split; [|split; [|split]].
    + unfold conv. rewrite outbound_struct_unfold. cbn [Out.convert_struct].
      fold create. now rewrite Hloop.
    + unfold convert, schema. rewrite outbound_convert_unfold.
      cbn [mapM Out.convert_item py_iter bind].
      fold create. now rewrite Hloop.
    + unfold d, fieldNames. rewrite length_combine, !length_map. lia.
    + intros f Hf. apply dict_get_combine_None. rewrite Hrs.
      apply NoDup_skipn_not_firstn; [assumption|].
      unfold fieldNames. rewrite skipn_map. now apply in_map.
  - intros Hlen.
    destruct (positional_loop_too_many [] (fieldNames fields)
                (build_convs (fun field => Out._create_converter lo so (dataType field))
                             fields) vs [])
      as [e He].
    { unfold fieldNames. now rewrite length_map. }
    cbn [app List.length] in He. split.
    + exists e. unfold conv. rewrite outbound_struct_unfold. cbn [Out.convert_struct].
      now rewrite He.
    + apply (outbound_convert_raise lo so to_arrow_schema from_pylist
               fields [] [] (VTuple vs) e).
      cbn [Out.convert_item py_iter bind]. now rewrite He.
Qed.

Lemma positional_arity_witness :
  let fields := [mkStructField "a" IntegerType true;
                 mkStructField "b" StringType true;
                 mkStructField "c" IntegerType true] in
  Out._create_converter (fun _ => Ok 0) (fun _ => "") (StructType fields)
    (VTuple [VInt 1; VBool false])
  = Ok (VDict [(VStr "a", VInt 1); (VStr "b", VStr "false")]) /\
  exists e,
    Out.convert (fun _ => Ok 0) (fun _ => "")
      (fun _ => Ok tt) (fun pylist _ => Ok pylist)
      (VList [VTuple [VInt 1; VInt 2; VInt 3; VInt 4]]) (Some (StructType fields))
    = Raise e.
Proof.
  intros fields. split.
  - refine (proj1 (proj1 (positional_arity (fun _ => Ok 0) (fun _ => "")
                            unit (list pyval)
                            (fun _ => Ok tt) (fun pylist _ => Ok pylist) fields
                            [VInt 1; VBool false])
                         [VInt 1; VStr "false"] _ _ _)).
    + repeat constructor; simpl; intuition discriminate.
    + simpl. lia.
    + repeat constructor.
  - apply (proj2 (positional_arity (fun _ => Ok 0) (fun _ => "")
                    unit (list pyval)
                    (fun _ => Ok tt) (fun pylist _ => Ok pylist) fields
                    [VInt 1; VInt 2; VInt 3; VInt 4])).
    simpl. lia.
Defined.

(* ================================================================== *)
(** * Map values *)
(* ================================================================== *)




(** Stores under pairwise different keys the dictionary does not hold
    append, in order. *)
Lemma fold_put_fresh {V} (l : list (pyval * V)) (d : dict V) :
  dict_wf l = true ->
  (forall kv, In kv l -> dict_get (fst kv) d = None) ->
  fold_left (fun d kv => dict_put (fst kv) (snd kv) d) l d = d ++ l.
Proof.
  revert d. induction l as [|[k v] l IH]; intros d Hwf Hfresh.
  - simpl. now rewrite app_nil_r.
  - cbn [dict_wf] in Hwf. rewrite !andb_true_iff in Hwf.
    destruct Hwf as [[_ Hk] Hwf].
    cbn [fold_left fst snd].
    rewrite dict_put_fresh by (apply (Hfresh (k, v)); now left).
    rewrite IH; [now rewrite <- app_assoc | assumption |].
    intros kv Hin. rewrite dict_get_app_None by (apply Hfresh; now right).
    simpl. rewrite forallb_forall in Hk. specialize (Hk kv Hin).
    now destruct (key_eqb k (fst kv)).
Qed.

Lemma dict_wf_hashable {V} (d : dict V) :
  dict_wf d = true -> forallb py_hashable (map fst d) = true.
Proof.
  induction d as [|[k v] d IH]; simpl; [reflexivity|].
  rewrite !andb_true_iff. intros [[Hk _] Hwf]. split; auto.
Qed.

(** The inbound dictionary construction, when every key and value
    converts and every converted key can be hashed, is the run of
    stores of the converted pairs. *)
Lemma dict_of_converted_ok key_conv value_conv pairs pairs' d :
  Forall2 (fun kv kv' => key_conv (fst kv) = Ok (fst kv') /\
                         value_conv (snd kv) = Ok (snd kv')) pairs pairs' ->
  forallb py_hashable (map fst pairs') = true ->
  In.dict_of_converted key_conv value_conv (map pair_tuple pairs) d =
  Ok (fold_left (fun d kv => dict_put (fst kv) (snd kv) d) pairs' d).
Proof.
  intros H. revert d. induction H as [|kv kv' pairs pairs' [Hk Hv] _ IH]; intros d Hh.
  - reflexivity.
  - cbn [map forallb] in Hh. apply andb_true_iff in Hh. destruct Hh as [Hh1 Hh2].
    cbn [map In.dict_of_converted pair_tuple In.tuple_item list_index nth_error bind].
    rewrite Hk. cbn [bind]. rewrite Hv. cbn [bind].
    unfold setitem. rewrite Hh1. cbn [bind fold_left]. now apply IH.
Qed.

Lemma forallb_is_pair pairs :
  forallb In.is_pair (map pair_tuple pairs) = true.
Proof.
  induction pairs as [|kv pairs IH]; simpl; auto.
Qed.



(** A type that needs no conversion outbound needs none inbound. *)
Lemma need_converter_inbound_outbound dt :
  Out._need_converter dt = false -> In._need_converter dt = false.
Proof.
  induction dt; simpl; try discriminate; auto.
Qed.

(** The outbound map comprehension, when every key and value converts,
    lists the converted pairs in the order of the items. *)
Lemma outbound_map_pairs key_conv value_conv items items' :
  Forall2 (fun kv kv' => key_conv (fst kv) = Ok (fst kv') /\
                         value_conv (snd kv) = Ok (snd kv')) items items' ->
  Out.convert_map key_conv value_conv (VDict items)
  = Ok (VList (map pair_tuple items')).
Proof.
  intros H. cbn [Out.convert_map].
  rewrite (mapM_Forall2 _ items (map pair_tuple items')); [reflexivity|].
  induction H as [|kv kv' items items' [Hk Hv] _ IH]; simpl; constructor; auto.
  now rewrite Hk, Hv.
Qed.

Lemma Forall2_identity (l : list (pyval * pyval)) :
  Forall2 (fun kv kv' => Ok (fst kv) = Ok (fst kv') /\
                         Ok (snd kv) = @Ok pyval (snd kv')) l l.
Proof.
  induction l; constructor; auto.
Qed.

(** C5: outbound, the map converter turns a mapping whose keys and values
    convert into the list of the converted (key, value) pairs, in the
    order of the mapping's items.  For key and value types that need no
    conversion the pairs are the mapping's own items, and the inbound map
    converter turns that list back into the original mapping. *)
Theorem map_round_trip :
  forall lo so K V items,
    (forall items',
        Forall2 (fun kv kv' =>
                   Out._create_converter lo so K (fst kv) = Ok (fst kv') /\
                   Out._create_converter lo so V (snd kv) = Ok (snd kv'))
                items items' ->
        Out._create_converter lo so (MapType K V) (VDict items)
        = Ok (VList (map pair_tuple items'))) /\
    (Out._need_converter K = false -> Out._need_converter V = false ->
     dict_wf items = true ->
     Out._create_converter lo so (MapType K V) (VDict items)
     = Ok (VList (map pair_tuple items)) /\
     In._create_converter (MapType K V) (VList (map pair_tuple items))
     = Ok (VDict items)).
Proof.
  intros lo so K V items. split.
  - intros items' H.
    cbn [Out._create_converter Out._need_converter negb].
    now apply outbound_map_pairs.
  - intros HK HV Hwf. split.
    + cbn [Out._create_converter Out._need_converter negb].
      apply outbound_map_pairs.
      assert (E : forall dt, Out._need_converter dt = false ->
                  Out._create_converter lo so dt = fun v => Ok v).
      { intros dt H. destruct dt; simpl in *; try discriminate; try reflexivity.
        now rewrite H. }
      rewrite (E K HK), (E V HV). apply Forall2_identity.
    + cbn [In._create_converter In._need_converter negb In.convert_map].
      rewrite forallb_is_pair. cbn [assert bind].
      rewrite (dict_of_converted_ok _ _ items items).
      * rewrite fold_put_fresh; [reflexivity | assumption | reflexivity].
      * assert (E : forall dt, In._need_converter dt = false ->
                    In._create_converter dt = fun v => Ok v).
        { intros dt H. destruct dt; simpl in *; try discriminate; try reflexivity.
          now rewrite H. }
        rewrite (E K), (E V) by now apply need_converter_inbound_outbound.
        apply Forall2_identity.
      * now apply dict_wf_hashable.
Qed.

Lemma map_round_trip_witness :
  let items := [(VInt 1, VBool true); (VInt 2, VBool false)] in
  Out._create_converter (fun _ => Ok 0) (fun _ => "") (MapType IntegerType BooleanType)
    (VDict items) = Ok (VList (map pair_tuple items)) /\
  In._create_converter (MapType IntegerType BooleanType)
    (VList (map pair_tuple items)) = Ok (VDict items).
Proof.
  intros items.
  apply (proj2 (map_round_trip (fun _ => Ok 0) (fun _ => "")
                  IntegerType BooleanType items)); reflexivity.
Defined.

(** The mapping [{"a": 1, "b": 2}] through a map from strings to integers,
    outbound and back. *)
Example map_round_trip_string_keys :
  forall lo so,
    Out._create_converter lo so (MapType StringType IntegerType)
      (VDict [(VStr "a", VInt 1); (VStr "b", VInt 2)])
    = Ok (VList [VTuple [VStr "a"; VInt 1]; VTuple [VStr "b"; VInt 2]]) /\
    In._create_converter (MapType StringType IntegerType)
      (VList [VTuple [VStr "a"; VInt 1]; VTuple [VStr "b"; VInt 2]])
    = Ok (VDict [(VStr "a", VInt 1); (VStr "b", VInt 2)]).
Proof.
  intros lo so. split; reflexivity.
Qed.

(* ================================================================== *)
(** * Shape checks *)
(* ================================================================== *)

Lemma outbound_scalar_rejected lo so dt v :
  Out.is_atomic v = true -> checks_shape Out._need_converter dt = true ->
  Out._create_converter lo so dt v = Raise AssertionError.
Proof.
  intros Hv Hdt. destruct dt; simpl in Hdt; try discriminate.
  - cbn [Out._create_converter Out._need_converter]. rewrite Hdt.
    destruct v; try discriminate; reflexivity.
  - destruct v; try discriminate; reflexivity.
  - destruct v; try discriminate; reflexivity.
Qed.

Lemma inbound_scalar_rejected dt v :
  Out.is_atomic v = true -> checks_shape In._need_converter dt = true ->
  In._create_converter dt v = Raise AssertionError.
Proof.
  intros Hv Hdt. destruct dt; simpl in Hdt; try discriminate.
  - cbn [In._create_converter In._need_converter]. rewrite Hdt.
    destruct v; try discriminate; reflexivity.
  - destruct v; try discriminate; reflexivity.
  - destruct v; try discriminate; reflexivity.
Qed.

(** The keyed loop fails when the converter of one of its items does. *)
Lemma keyed_loop_raise check (convs : dict converter) items k v (conv : converter) e :
  In (k, v) items -> py_hashable k = true ->
  dict_get k convs = Some conv -> conv v = Raise e ->
  forall acc, exists e', Out.keyed_loop check convs items acc = Raise e'.
Proof.
  intros Hin Hk Hget He.
  induction items as [|[k0 v0] items IH]; [contradiction|].
  intros acc. cbn [Out.keyed_loop].
  destruct (assert (negb check || is_str k0)); cbn [bind]; [|eauto].
  destruct Hin as [Heq|Hin].
  - injection Heq as -> ->. unfold getitem. rewrite Hk, Hget. cbn [bind].
    rewrite He. cbn [bind]. eauto.
  - destruct (getitem convs k0) as [c0|]; cbn [bind]; [|eauto].
    destruct (c0 v0) as [r|]; cbn [bind]; [|eauto].
    destruct (setitem acc k0 r); cbn [bind]; [|eauto].
    now apply IH.
Qed.

(** C4: a non-null scalar given for a struct type, a map type, or an array
    type whose elements need conversion fails the converter's assertion,
    in both directions, and the failure aborts the [convert] call that
    meets it: outbound for a keyed row holding the scalar under such a
    field, inbound for a table holding it in such a column.  For an array
    type whose elements need no conversion the converter is the identity
    and returns the scalar unchanged. *)
Theorem scalar_through_composite :
  forall lo so (pa_Schema pa_Table : Type)
         (to_arrow_schema : DataType -> result pa_Schema)
         (from_pylist : list pyval -> pa_Schema -> result pa_Table)
         dt v,
    Out.is_atomic v = true ->
    (checks_shape Out._need_converter dt = true ->
     Out._create_converter lo so dt v = Raise AssertionError /\
     forall fields nullable n pre post items,
       NoDup (fieldNames fields) ->
       In (mkStructField n dt nullable) fields ->
       In (VStr n, v) items ->
       exists e,
         Out.convert lo so to_arrow_schema from_pylist
           (VList (pre ++ VDict items :: post)) (Some (StructType fields))
         = Raise e) /\
    (checks_shape In._need_converter dt = true ->
     In._create_converter dt v = Raise AssertionError /\
     forall table fields nullable n j i column,
       nth_error fields j = Some (mkStructField n dt nullable) ->
       nth_error (columns table) j = Some column ->
       nth_error column i = Some v ->
       (i < num_rows table)%nat ->
       exists e, In.convert table (Some (StructType fields)) = Raise e) /\
    (forall elementType,
        dt = ArrayType elementType ->
        (Out._need_converter elementType = false ->
         Out._create_converter lo so dt v = Ok v) /\
        (In._need_converter elementType = false ->
         In._create_converter dt v = Ok v)).
Proof.
  intros lo so pa_Schema pa_Table to_arrow_schema from_pylist dt v Hv.
  repeat split.
  - now apply outbound_scalar_rejected.
  - intros fields nullable n pre post items Hnd Hf Hin.
    set (convs := build_convs (fun field => Out._create_converter lo so (dataType field))
                              fields).
    assert (Hitem : exists e,
               Out.convert_item (fieldNames fields) convs (VDict items) = Raise e).
    { cbn [Out.convert_item].
      destruct (keyed_loop_raise false convs items (VStr n) v
                  (Out._create_converter lo so dt) AssertionError Hin eq_refl)
        with (acc := @nil (pyval * pyval)) as [e He].
      - exact (build_convs_get
                 (fun field => Out._create_converter lo so (dataType field))
                 fields (mkStructField n dt nullable) Hnd Hf).
      - now apply outbound_scalar_rejected.
      - rewrite He. cbn [bind]. eauto. }
    destruct Hitem as [e He].
    now apply (outbound_convert_raise lo so to_arrow_schema from_pylist
                 fields pre post (VDict items) e).
  - now apply inbound_scalar_rejected.
  - intros table fields nullable n j i column Hf Hc Hcell Hi.
    assert (Hrow : exists e,
               In.convert_row (map (fun f => In._create_converter (dataType f)) fields)
                              (columns table) table i = Raise e).
    { eapply (mapM_raise _ _ j).
      - apply in_seq. unfold num_columns.
        assert (Hsome : nth_error (columns table) j <> None) by congruence.
        apply nth_error_Some in Hsome. lia.
      - unfold list_index. rewrite nth_error_map, Hf, Hc.
        cbn [option_map bind]. rewrite Hcell. cbn [bind dataType].
        now apply inbound_scalar_rejected. }
    destruct Hrow as [e He].
    unfold In.convert. cbn [assert bind].
    eapply (mapM_raise _ _ i).
    + apply in_seq. lia.
    + rewrite He. reflexivity.
  - intros Hneed. subst dt. apply outbound_identity. exact Hneed.
  - intros Hneed. subst dt. apply inbound_identity. exact Hneed.
Qed.

(** An integer given for an array of integers comes back as it is. *)
Lemma scalar_through_array_counterexample :
  In._create_converter (ArrayType IntegerType) (VInt 5) = Ok (VInt 5).
Proof. reflexivity. Qed.

Lemma scalar_through_composite_witness :
  Out._create_converter (fun _ => Ok 0) (fun _ => "")
    (MapType StringType IntegerType) (VInt 5) = Raise AssertionError /\
  (exists e,
      Out.convert (fun _ => Ok 0) (fun _ => "")
        (fun _ => Ok tt) (fun pylist _ => Ok pylist)
        (VList [VDict [(VStr "m", VInt 5)]])
        (Some (StructType [mkStructField "m" (MapType StringType IntegerType) true]))
      = Raise e) /\
  In._create_converter (MapType StringType IntegerType) (VInt 5)
  = Raise AssertionError /\
  (exists e,
      In.convert (mkTable ["m"] [[VInt 5]] 1)
        (Some (StructType [mkStructField "m" (MapType StringType IntegerType) true]))
      = Raise e) /\
  Out._create_converter (fun _ => Ok 0) (fun _ => "") (ArrayType IntegerType) (VInt 5)
  = Ok (VInt 5) /\
  In._create_converter (ArrayType IntegerType) (VInt 5) = Ok (VInt 5).
Proof.
  pose proof (scalar_through_composite (fun _ => Ok 0) (fun _ => "")
                unit (list pyval) (fun _ => Ok tt) (fun pylist _ => Ok pylist)
                (MapType StringType IntegerType) (VInt 5) eq_refl)
    as (Hout & Hin & _).
  pose proof (scalar_through_composite (fun _ => Ok 0) (fun _ => "")
                unit (list pyval) (fun _ => Ok tt) (fun pylist _ => Ok pylist)
                (ArrayType IntegerType) (VInt 5) eq_refl)
    as (_ & _ & Harr).
  destruct (Hout eq_refl) as [Hout1 Hout2].
  destruct (Hin eq_refl) as [Hin1 Hin2].
  destruct (Harr IntegerType eq_refl) as [Harr1 Harr2].
  refine (conj Hout1 (conj _ (conj Hin1 (conj _ (conj _ _))))).
  - apply (Hout2 [mkStructField "m" (MapType StringType IntegerType) true]
                 true "m" [] [] [(VStr "m", VInt 5)]).
    + repeat constructor. simpl. tauto.
    + now left.
    + now left.
  - apply (Hin2 (mkTable ["m"] [[VInt 5]] 1)
                [mkStructField "m" (MapType StringType IntegerType) true]
                true "m" 0%nat 0%nat [VInt 5]); try reflexivity.
    simpl. lia.
  - apply Harr1. reflexivity.
  - apply Harr2. reflexivity.
Defined.

(* ================================================================== *)
(** * Tables to rows *)
(* ================================================================== *)

Lemma mapM_Forall2_inv {A B} (f : A -> result B) l r :
  mapM f l = Ok r -> Forall2 (fun a b => f a = Ok b) l r.
Proof.
  revert r. induction l as [|a l IH]; simpl; intros r H.
  - inversion H. constructor.
  - destruct (f a) as [b|] eqn:E; cbn [bind] in H; [|discriminate].
    destruct (mapM f l) as [bs|]; cbn [bind] in H; [|discriminate].
    inversion H; subst. constructor; auto.
Qed.

(** A comprehension all of whose elements convert returns. *)
Lemma mapM_total {A B} (f : A -> result B) l :
  (forall a, In a l -> exists b, f a = Ok b) -> exists r, mapM f l = Ok r.
Proof.
  induction l as [|a l IH]; simpl; intros H; [eauto|].
  destruct (H a) as [b Hb]; [now left|]. rewrite Hb. cbn [bind].
  destruct IH as [r Hr]; [intros; apply H; now right|].
  rewrite Hr. cbn [bind]. eauto.
Qed.

(** C3: [convert] fails its assertion when the schema is absent or is not
    a struct type.  It does not compare the number of fields with the
    number of columns: when it returns, it returns one row record per
    table row, made of the table's column names and the converted cells of
    that row; it returns for every well-formed table with no more columns
    than the schema has fields whose cells convert under the type of the
    field at their column's position, and for every table without rows;
    it fails when the table has more columns than the schema has fields
    and at least one row. *)
Theorem table_to_rows_contract :
  forall table,
    In.convert table None = Raise AssertionError /\
    (forall dt,
        match dt with
        | StructType _ => True
        | _ => In.convert table (Some dt) = Raise AssertionError
        end) /\
    (forall fields rows,
        In.convert table (Some (StructType fields)) = Ok rows ->
        List.length rows = num_rows table /\
        Forall2 (fun i row =>
                   exists values,
                     In.convert_row
                       (map (fun f => In._create_converter (dataType f)) fields)
                       (columns table) table i = Ok values /\
                     List.length values = num_columns table /\
                     row = _create_row (column_names table) values)
                (seq 0 (num_rows table)) rows) /\
    (forall fields,
        table_wf table ->
        (num_columns table <= List.length fields)%nat ->
        (forall j f column cell,
            nth_error fields j = Some f ->
            nth_error (columns table) j = Some column ->
            In cell column ->
            exists r, In._create_converter (dataType f) cell = Ok r) ->
        exists rows, In.convert table (Some (StructType fields)) = Ok rows) /\
    (forall fields,
        num_rows table = 0%nat ->
        In.convert table (Some (StructType fields)) = Ok []) /\
    (forall fields,
        (List.length fields < num_columns table)%nat ->
        (0 < num_rows table)%nat ->
        exists e, In.convert table (Some (StructType fields)) = Raise e).
Proof.
  intros table.
  split; [|split; [|split; [|split; [|split]]]].
  - reflexivity.
  - intros dt. destruct dt; try reflexivity; exact I.
  - intros fields rows H.
    unfold In.convert in H. cbn [assert bind] in H. split.
    + apply mapM_length in H. now rewrite length_seq in H.
    + apply mapM_Forall2_inv in H.
      eapply Forall2_impl; [|exact H].
      intros i row Hrow. cbv beta in Hrow.
      destruct (In.convert_row _ _ table i) as [values|] eqn:E;
        cbn [bind] in Hrow; [|discriminate].
      exists values. split; [reflexivity|]. split.
      * apply mapM_length in E. now rewrite length_seq in E.
      * now inversion Hrow.
  - intros fields [Hnames Hcols] Hcount Hcells.
    unfold In.convert. cbn [assert bind].
    apply mapM_total. intros i Hi. apply in_seq in Hi.
    assert (Hrow : exists values,
               In.convert_row (map (fun f => In._create_converter (dataType f)) fields)
                              (columns table) table i = Ok values).
    { apply mapM_total. intros j Hj. apply in_seq in Hj. unfold num_columns in *.
      destruct (nth_error fields j) as [f|] eqn:Ef;
        [|apply nth_error_None in Ef; lia].
      destruct (nth_error (columns table) j) as [column|] eqn:Ec;
        [|apply nth_error_None in Ec; lia].
      assert (Hlen : List.length column = num_rows table).
      { rewrite Forall_forall in Hcols. apply Hcols. eapply nth_error_In; eauto. }
      destruct (nth_error column i) as [cell|] eqn:Ecell;
        [|apply nth_error_None in Ecell; lia].
      unfold list_index. rewrite nth_error_map, Ef, Ec.
      cbn [option_map bind]. rewrite Ecell. cbn [bind].
      apply (Hcells j f column cell Ef Ec). eapply nth_error_In; eauto. }
    destruct Hrow as [values Hv]. rewrite Hv. cbn [bind]. eauto.
  - intros fields H0. unfold In.convert. rewrite H0. reflexivity.
  - intros fields Hcount Hrows.
    assert (Hrow : exists e,
               In.convert_row (map (fun f => In._create_converter (dataType f)) fields)
                              (columns table) table 0 = Raise e).
    { eapply (mapM_raise _ _ (List.length fields)).
      - apply in_seq. lia.
      - unfold list_index.
        rewrite (proj2 (nth_error_None _ _)) by (rewrite length_map; lia).
        reflexivity. }
    destruct Hrow as [e He].
    unfold In.convert. cbn [assert bind].
    eapply (mapM_raise _ _ 0%nat).
    + apply in_seq. lia.
    + rewrite He. reflexivity.
Qed.

(** A table of one column and two rows read with a schema of two fields. *)
Lemma table_to_rows_counterexample :
  In.convert (mkTable ["a"] [[VInt 1; VInt 2]] 2)
    (Some (StructType [mkStructField "a" IntegerType true;
                       mkStructField "b" StringType true]))
  = Ok [VRow (Some ["a"]) [VInt 1]; VRow (Some ["a"]) [VInt 2]].
Proof. reflexivity. Qed.

Lemma table_to_rows_contract_witness :
  let table := mkTable ["a"; "b"] [[VInt 1; VInt 2]; [VBytes []; VNone]] 2 in
  let fields := [mkStructField "a" IntegerType true;
                 mkStructField "b" BinaryType true] in
  (exists rows, In.convert table (Some (StructType fields)) = Ok rows) /\
  List.length [VRow (Some ["a"; "b"]) [VInt 1; VBytearray []];
               VRow (Some ["a"; "b"]) [VInt 2; VNone]] = num_rows table /\
  In.convert (mkTable ["a"; "b"] [[]; []] 0) (Some (StructType fields)) = Ok [] /\
  (exists e,
      In.convert table (Some (StructType [mkStructField "a" IntegerType true]))
      = Raise e).
Proof.
  intros table fields.
  destruct (table_to_rows_contract table) as (_ & _ & Hlen & Hok & _ & Hmore).
  destruct (table_to_rows_contract (mkTable ["a"; "b"] [[]; []] 0))
    as (_ & _ & _ & _ & Hempty & _).
  refine (conj _ (conj _ (conj _ _))).
  - apply (Hok fields).
    + split; [reflexivity | repeat constructor].
    + unfold table, fields, num_columns. simpl. lia.
    + intros j f column cell Hf Hc Hin.
      destruct j as [|[|j]]; simpl in Hf, Hc;
        try (destruct j; discriminate);
        injection Hf as <-; injection Hc as <-; simpl in Hin;
        destruct Hin as [<-|[<-|[]]]; eexists; reflexivity.
  - apply (proj1 (Hlen fields _ eq_refl)).
  - apply Hempty. reflexivity.
  - apply Hmore; unfold table, num_columns; simpl; lia.
Defined.

(* ================================================================== *)
(** * Worked examples *)
(* ================================================================== *)

(** One row [{"name": True, "scores": [1, 2, 3]}] under the schema
    [name: string, scores: array<int>]: the keyed mapping handed to the
    table constructor, and the row read back from the table. *)
Example end_to_end_outbound :
  forall lo so,
    Out.convert lo so (fun _ => Ok tt) (fun pylist _ => Ok pylist)
      (VList [VDict [(VStr "name", VBool true);
                     (VStr "scores", VList [VInt 1; VInt 2; VInt 3])]])
      (Some (StructType [mkStructField "name" StringType true;
                         mkStructField "scores" (ArrayType IntegerType) true]))
    = Ok [VDict [(VStr "name", VStr "true");
                 (VStr "scores", VList [VInt 1; VInt 2; VInt 3])]].
Proof. reflexivity. Qed.

Example end_to_end_inbound :
  In.convert
    (mkTable ["name"; "scores"]
             [[VStr "true"]; [VList [VInt 1; VInt 2; VInt 3]]] 1)
    (Some (StructType [mkStructField "name" StringType true;
                       mkStructField "scores" (ArrayType IntegerType) true]))
  = Ok [VRow (Some ["name"; "scores"])
             [VStr "true"; VList [VInt 1; VInt 2; VInt 3]]].
Proof. reflexivity. Qed.

(** A null cell of a struct column is read back as an empty row. *)
Example null_struct_cell :
  In.convert
    (mkTable ["s"] [[VNone; VDict [(VStr "x", VBytes [])]]] 2)
    (Some (StructType
             [mkStructField "s" (StructType [mkStructField "x" BinaryType true]) true]))
  = Ok [VRow (Some ["s"]) [Row_empty];
        VRow (Some ["s"]) [VRow (Some ["x"]) [VBytearray []]]].
Proof. reflexivity. Qed.

(** [True], [1], [1.0] and [Decimal("1.0")] are one key. *)
Example numeric_keys_collapse :
  In._create_converter (MapType IntegerType StringType)
    (VList [VTuple [VBool true; VStr "a"];
            VTuple [VInt 1; VStr "b"];
            VTuple [VFloat (FFinite 4 (-2)); VStr "c"];
            VTuple [VDecimal (DFinite false 10 (-1)); VStr "d"]])
  = Ok (VDict [(VBool true, VStr "d")]).
Proof. reflexivity. Qed.

(** A positional row may be any iterable; a scalar row cannot be
    iterated. *)
Example positional_rows :
  forall lo so,
    Out.convert lo so (fun _ => Ok tt) (fun pylist _ => Ok pylist)
      (VList [VList [VInt 1]; VTuple []])
      (Some (StructType [mkStructField "a" IntegerType true]))
    = Ok [VDict [(VStr "a", VInt 1)]; VDict []] /\
    Out.convert lo so (fun _ => Ok tt) (fun pylist _ => Ok pylist)
      (VList [VInt 1])
      (Some (StructType [mkStructField "a" IntegerType true]))
    = Raise TypeError.
Proof. intros; split; reflexivity. Qed.

(* ================================================================== *)
(** * Further properties of the leaf converters *)
(* ================================================================== *)

(** X1: outbound, every converter maps [None] to [None]; inbound, every
    converter maps [None] to [None] except the one of a struct type, which
    maps it to the empty row record. *)
Theorem null_propagation_by_type :
  forall lo so dt,
    Out._create_converter lo so dt VNone = Ok VNone /\
    match dt with
    | StructType _ => In._create_converter dt VNone = Ok Row_empty
    | _ => In._create_converter dt VNone = Ok VNone
    end.
Proof.
  intros lo so dt. split.
  - destruct dt; simpl; try reflexivity.
    destruct (Out._need_converter dt); reflexivity.
  - destruct dt; simpl; try reflexivity.
    destruct (In._need_converter dt); reflexivity.
Qed.

(** X2: a binary value makes the round trip: outbound, [bytes] and
    [bytearray] both become [bytes]; inbound, [bytes] become a [bytearray]
    of the same content, which converts outbound to the original [bytes]
    again, while the inbound converter itself rejects a [bytearray]. *)
Theorem binary_round_trip :
  forall lo so b,
    Out._create_converter lo so BinaryType (VBytearray b)
    = Out._create_converter lo so BinaryType (VBytes b) /\
    (r <- Out._create_converter lo so BinaryType (VBytes b) ;;
     In._create_converter BinaryType r) = Ok (VBytearray b) /\
    (r <- In._create_converter BinaryType (VBytes b) ;;
     Out._create_converter lo so BinaryType r) = Ok (VBytes b) /\
    (r <- In._create_converter BinaryType (VBytes b) ;;
     In._create_converter BinaryType r) = Raise AssertionError.
Proof.
  intros lo so b. repeat split.
Qed.

(** X3: outbound, the timestamp converter keeps the instant of a
    zone-aware datetime whose reading in UTC lies within the calendar,
    maps two zone-aware datetimes that denote the same instant to the same
    value, and leaves its own results unchanged. *)
Theorem timestamp_outbound_canonical :
  forall lo so a b za zb,
    let conv := Out._create_converter lo so TimestampType in
    tz a = Some za -> tz b = Some zb ->
    in_calendar (wall a - utcoffset za) = true ->
    exists a',
      conv (VDatetime a) = Ok (VDatetime a') /\
      datetime_eqb a a' = true /\
      conv (VDatetime a') = Ok (VDatetime a') /\
      (datetime_eqb a b = true -> conv (VDatetime b) = Ok (VDatetime a')).
Proof.
  intros lo so [wa tza] [wb tzb] za zb conv Ha Hb Hin. simpl in Ha, Hb, Hin. subst.
  exists {| wall := wa - utcoffset za; tz := Some timezone_utc |}.
  assert (Ea : astimezone_utc lo {| wall := wa; tz := Some za |}
               = Ok {| wall := wa - utcoffset za; tz := Some timezone_utc |}).
  { unfold astimezone_utc. cbn [tz wall bind]. now rewrite Hin. }
  unfold conv. cbn [Out._create_converter Out._need_converter negb
                    Out.convert_timestample].
  split; [|split; [|split]].
  - now rewrite Ea.
  - unfold datetime_eqb. cbn. apply Z.eqb_eq. lia.
  - destruct (astimezone_utc_Ok _ _ _ Ea) as (_ & _ & ->). reflexivity.
  - unfold datetime_eqb. cbn [tz wall]. rewrite Z.eqb_eq. intros H.
    unfold astimezone_utc. cbn [tz wall bind]. rewrite <- H, Hin. reflexivity.
Qed.

Lemma timestamp_outbound_canonical_witness :
  let noon_utc := {| wall := 43200000000; tz := Some timezone_utc |} in
  let one_cet :=
    {| wall := 46800000000;
       tz := Some {| tzname := "CET"; utcoffset := 3600000000 |} |} in
  exists a',
    Out._create_converter (fun _ => Ok 0) (fun _ => "") TimestampType
      (VDatetime one_cet) = Ok (VDatetime a') /\
    datetime_eqb one_cet a' = true /\
    Out._create_converter (fun _ => Ok 0) (fun _ => "") TimestampType
      (VDatetime a') = Ok (VDatetime a') /\
    (datetime_eqb one_cet noon_utc = true ->
     Out._create_converter (fun _ => Ok 0) (fun _ => "") TimestampType
       (VDatetime noon_utc) = Ok (VDatetime a')).
Proof.
  intros noon_utc one_cet.
  apply (timestamp_outbound_canonical (fun _ => Ok 0) (fun _ => "") one_cet noon_utc
           {| tzname := "CET"; utcoffset := 3600000000 |} timezone_utc);
    reflexivity.
Defined.

(* ================================================================== *)
(** * Arrays *)
(* ================================================================== *)

Lemma mapM_Ok {A} (l : list A) : mapM (fun a => Ok a) l = Ok l.
Proof.
  induction l as [|a l IH]; simpl; [reflexivity | now rewrite IH].
Qed.

(** X4: in both directions the converter of an array type maps a list
    elementwise through the converter of the element type, in order,
    whether or not the builder short-circuits to the identity; so a result
    has the length of the input, and the call fails exactly when an element
    fails. *)
Theorem array_elementwise :
  forall lo so elementType l,
    Out._create_converter lo so (ArrayType elementType) (VList l)
    = (l' <- mapM (Out._create_converter lo so elementType) l ;; Ok (VList l')) /\
    In._create_converter (ArrayType elementType) (VList l)
    = (l' <- mapM (In._create_converter elementType) l ;; Ok (VList l')) /\
    (forall r, Out._create_converter lo so (ArrayType elementType) (VList l) = Ok r ->
               exists l', r = VList l' /\ List.length l' = List.length l) /\
    (forall r, In._create_converter (ArrayType elementType) (VList l) = Ok r ->
               exists l', r = VList l' /\ List.length l' = List.length l).
Proof.
  intros lo so e l.
  assert (Hout : Out._create_converter lo so (ArrayType e) (VList l)
                 = (l' <- mapM (Out._create_converter lo so e) l ;; Ok (VList l'))).
  { cbn [Out._create_converter Out._need_converter].
    destruct (Out._need_converter e) eqn:E; cbn [negb].
    - reflexivity.
    - rewrite (mapM_ext_in _ (fun v => Ok v)).
      + now rewrite mapM_Ok.
      + intros v _. now apply outbound_identity. }
  assert (Hin : In._create_converter (ArrayType e) (VList l)
                = (l' <- mapM (In._create_converter e) l ;; Ok (VList l'))).
  { cbn [In._create_converter In._need_converter].
    destruct (In._need_converter e) eqn:E; cbn [negb].
    - reflexivity.
    - rewrite (mapM_ext_in _ (fun v => Ok v)).
      + now rewrite mapM_Ok.
      + intros v _. now apply inbound_identity. }
  split; [exact Hout|]. split; [exact Hin|]. split.
  - intros r Hr. rewrite Hout in Hr.
    destruct (mapM (Out._create_converter lo so e) l) as [l'|] eqn:E;
      simpl in Hr; [|discriminate].
    inversion Hr; subst. exists l'. split; [reflexivity|].
    now apply mapM_length in E.
  - intros r Hr. rewrite Hin in Hr.
    destruct (mapM (In._create_converter e) l) as [l'|] eqn:E;
      simpl in Hr; [|discriminate].
    inversion Hr; subst. exists l'. split; [reflexivity|].
    now apply mapM_length in E.
Qed.

Lemma array_elementwise_witness :
  exists l',
    VList [VStr "1"; VNone; VStr "true"] = VList l' /\
    List.length l' = List.length [VInt 1; VNone; VBool true].
Proof.
  apply (proj1 (proj2 (proj2
           (array_elementwise (fun _ => Ok 0) (fun _ => "") StringType
              [VInt 1; VNone; VBool true])))
           (VList [VStr "1"; VNone; VStr "true"])).
  reflexivity.
Defined.

(* ================================================================== *)
(** * Further properties, inbound *)
(* ================================================================== *)

(** X5: inbound, [convert] reads the schema for the types of its fields
    only, position by position: two schemas with the same field types, in
    order, give the same outcome on every table, whatever their field
    names and nullability; the rows are named after the table's
    columns. *)
Theorem inbound_schema_names_irrelevant :
  forall table fields fields',
    map dataType fields = map dataType fields' ->
    In.convert table (Some (StructType fields))
    = In.convert table (Some (StructType fields')).
Proof.
  intros table fields fields' H. unfold In.convert. cbn [assert bind].
  assert (E : forall fs, map (fun f => In._create_converter (dataType f)) fs
                         = map In._create_converter (map dataType fs))
    by (intros; now rewrite map_map).
  now rewrite !E, H.
Qed.

Lemma inbound_schema_names_irrelevant_witness :
  let table := mkTable ["a"; "b"] [[VInt 1]; [VBytes []]] 1 in
  In.convert table
    (Some (StructType [mkStructField "a" IntegerType true;
                       mkStructField "b" BinaryType true]))
  = In.convert table
      (Some (StructType [mkStructField "x" IntegerType false;
                         mkStructField "x" BinaryType false])).
Proof.
  intros table.
  apply (inbound_schema_names_irrelevant table
           [mkStructField "a" IntegerType true; mkStructField "b" BinaryType true]
           [mkStructField "x" IntegerType false; mkStructField "x" BinaryType false]).
  reflexivity.
Defined.

(** X6: inbound, a list of pairs whose first key converts to a value that
    cannot be hashed, its value converting too, fails with a type error.
    The inbound binary converter returns a [bytearray], which cannot be
    hashed: a non-empty map with binary keys never converts. *)
Theorem inbound_map_unhashable_key :
  forall V v r rest,
    forallb In.is_pair rest = true ->
    In._create_converter V v = Ok r ->
    (forall K k k',
        In._create_converter K k = Ok k' ->
        py_hashable k' = false ->
        In._create_converter (MapType K V) (VList (VTuple [k; v] :: rest))
        = Raise TypeError) /\
    (forall b,
        In._create_converter (MapType BinaryType V)
          (VList (VTuple [VBytes b; v] :: rest))
        = Raise TypeError).
Proof.
  intros V v r rest Hrest Hv.
  assert (G : forall K k k',
             In._create_converter K k = Ok k' ->
             py_hashable k' = false ->
             In._create_converter (MapType K V) (VList (VTuple [k; v] :: rest))
             = Raise TypeError).
  { intros K k k' Hk Hh.
    cbn [In._create_converter In._need_converter negb In.convert_map
         forallb In.is_pair andb].
    rewrite Hrest. cbn [assert bind In.dict_of_converted In.tuple_item
                        list_index nth_error].
    rewrite Hk. cbn [bind]. rewrite Hv. cbn [bind].
    unfold setitem. now rewrite Hh. }
  split; [exact G|].
  intros b. apply (G BinaryType (VBytes b) (VBytearray b)); reflexivity.
Qed.

Lemma inbound_map_unhashable_key_witness :
  In._create_converter (MapType BinaryType IntegerType)
    (VList [VTuple [VBytes [x61]; VInt 1]]) = Raise TypeError.
Proof.
  apply (proj2 (inbound_map_unhashable_key IntegerType (VInt 1) (VInt 1) []
                  eq_refl eq_refl)).
Defined.

Lemma inbound_keyed_loop_outbound convs items acc :
  In.keyed_loop convs items acc = Out.keyed_loop true convs items acc.
Proof.
  revert acc. induction items as [|[k v] items IH]; intros acc; [reflexivity|].
  cbn [In.keyed_loop Out.keyed_loop negb orb].
  destruct (assert (is_str k)); cbn [bind]; [|reflexivity].
  destruct (getitem convs k) as [c|]; cbn [bind]; [|reflexivity].
  destruct (c v) as [r|]; cbn [bind]; [|reflexivity].
  destruct (setitem acc k r); cbn [bind]; [apply IH | reflexivity].
Qed.

(** The converted items bear the names of the items, in order. *)
Lemma convert_fields_names convs nvs rs :
  convert_fields convs nvs = Ok rs ->
  exists values,
    List.length values = List.length nvs /\
    rs = map str_item (combine (map fst nvs) values).
Proof.
  revert rs. induction nvs as [|[n v] nvs IH]; intros rs H.
  - inversion H. now exists [].
  - unfold convert_fields in *. cbn [mapM fst snd] in H.
    destruct (getitem convs (VStr n)) as [c|]; cbn [bind] in H; [|discriminate].
    destruct (c v) as [r|]; cbn [bind] in H; [|discriminate].
    destruct (mapM _ nvs) as [rs'|]; cbn [bind] in H; [|discriminate].
    inversion H; subst. destruct (IH rs' eq_refl) as (values & Hlen & ->).
    exists (r :: values). split; [simpl; now rewrite Hlen | reflexivity].
Qed.

Lemma Row_kwargs_str_items nvs :
  nvs <> [] ->
  Row_kwargs (map str_item nvs) = Ok (VRow (Some (map fst nvs)) (map snd nvs)).
Proof.
  intros Hne. unfold Row_kwargs.
  assert (E : forallb (fun kv : pyval * pyval => is_str (fst kv)) (map str_item nvs)
              = true).
  { induction nvs as [|[n v] l IH]; [reflexivity|]. simpl.
    destruct l; [reflexivity|]. apply IH. discriminate. }
  rewrite E. destruct nvs as [|[n v] nvs]; [contradiction|].
  cbn [map str_item fst snd]. f_equal. f_equal.
  - f_equal. rewrite map_map. reflexivity.
  - now rewrite map_map.
Qed.

(** X7: inbound, a struct cell given as a non-empty mapping with distinct
    names, when it converts, becomes a row record whose fields are the
    names of the mapping, in the order of the mapping (not of the schema),
    with one value per item; if no field of the struct type needs
    conversion the values are the mapping's own, whatever its names. *)
Theorem inbound_struct_row :
  forall fields nvs,
    NoDup (map fst nvs) -> nvs <> [] ->
    (forall r,
        In._create_converter (StructType fields) (VDict (map str_item nvs)) = Ok r ->
        exists values,
          r = VRow (Some (map fst nvs)) values /\
          List.length values = List.length nvs) /\
    (existsb (fun f => In._need_converter (dataType f)) fields = false ->
     In._create_converter (StructType fields) (VDict (map str_item nvs))
     = Ok (VRow (Some (map fst nvs)) (map snd nvs))).
Proof.
  intros fields nvs Hnd Hne.
  cbn [In._create_converter In._need_converter negb In.convert_struct].
  destruct (existsb _ fields) eqn:Eneed.
  - split; [|discriminate].
    intros r Hr. rewrite inbound_keyed_loop_outbound, struct_keyed in Hr by assumption.
    destruct (convert_fields _ nvs) as [rs|] eqn:E; cbn [bind] in Hr; [|discriminate].
    destruct (convert_fields_names _ _ _ E) as (values & Hlen & ->).
    assert (Hc : combine (map fst nvs) values <> []).
    { destruct nvs as [|[n v] nvs]; [contradiction|].
      destruct values; [discriminate Hlen | discriminate]. }
    rewrite (Row_kwargs_str_items _ Hc) in Hr. inversion Hr; subst.
    exists (map snd (combine (map fst nvs) values)). split.
    + f_equal. f_equal.
      clear -Hlen. revert values Hlen.
      induction nvs as [|[n v] nvs IH]; intros [|x values] Hlen;
        try discriminate; [reflexivity|].
      simpl. f_equal. apply IH. now injection Hlen.
    + rewrite length_map, length_combine, length_map. lia.
  - split.
    + intros r Hr. rewrite (Row_kwargs_str_items _ Hne) in Hr. inversion Hr; subst.
      exists (map snd nvs). split; [reflexivity | now rewrite length_map].
    + intros _. now apply Row_kwargs_str_items.
Qed.

Lemma inbound_struct_row_witness :
  exists values,
    VRow (Some ["t"; "b"]) [VNone; VBytearray []]
    = VRow (Some ["t"; "b"]) values /\
    List.length values = 2%nat.
Proof.
  apply (proj1 (inbound_struct_row
                  [mkStructField "b" BinaryType true;
                   mkStructField "t" TimestampType true]
                  [("t", VNone); ("b", VBytes [])]
                  ltac:(repeat constructor; simpl; intuition discriminate)
                  ltac:(discriminate))
               (VRow (Some ["t"; "b"]) [VNone; VBytearray []])).
  reflexivity.
Defined.

(* ================================================================== *)
(** * Further properties, outbound *)
(* ================================================================== *)

Lemma key_eqb_str_l n k : key_eqb (VStr n) k = true -> k = VStr n.
Proof.
  destruct k; simpl; try discriminate. intros H.
  apply String.eqb_eq in H. now subst.
Qed.

Lemma dict_get_Some_key {V} k (d : dict V) v :
  dict_get k d = Some v -> exists k', In (k', v) d /\ key_eqb k' k = true.
Proof.
  induction d as [|[k0 v0] d IH]; simpl; [discriminate|].
  destruct (key_eqb k0 k) eqn:E.
  - intros H. inversion H; subst. exists k0. split; [now left | assumption].
  - intros H. destruct (IH H) as (k' & Hin & Hk). exists k'. split; [now right | assumption].
Qed.

(** A store keeps the keys of a dictionary and adds at most its own. *)
Lemma dict_put_keys {V} (P : pyval -> Prop) k (v : V) d :
  Forall (fun kv => P (fst kv)) d -> P k ->
  Forall (fun kv => P (fst kv)) (dict_put k v d).
Proof.
  intros Hd Hk. induction d as [|[k0 v0] d IH]; simpl.
  - constructor; [exact Hk | constructor].
  - inversion Hd; subst. destruct (key_eqb k0 k); constructor; auto.
Qed.

(** The converters are registered under the names of the fields. *)
Lemma build_convs_keys create fields :
  Forall (fun kc => exists n, In n (fieldNames fields) /\ fst kc = VStr n)
         (build_convs create fields).
Proof.
  unfold build_convs.
  assert (G : forall (l : list StructField) (d : dict converter),
             (forall f, In f l -> In (name f) (fieldNames fields)) ->
             Forall (fun kc => exists n, In n (fieldNames fields) /\ fst kc = VStr n) d ->
             Forall (fun kc => exists n, In n (fieldNames fields) /\ fst kc = VStr n)
                    (fold_left (fun d f => dict_put (VStr (name f)) (create f) d) l d)).
  { induction l as [|f l IH]; intros d Hl Hd; [exact Hd|].
    cbn [fold_left]. apply IH.
    - intros g Hg. apply Hl. now right.
    - apply (dict_put_keys (fun k => exists n, In n (fieldNames fields) /\ k = VStr n)).
      + exact Hd.
      + exists (name f). split; [apply Hl; now left | reflexivity]. }
  apply G; [|constructor].
  intros f Hf. unfold fieldNames. now apply in_map.
Qed.

(** A key that finds a converter is the name of a field. *)
Lemma build_convs_getitem_name create fields k c :
  getitem (build_convs create fields) k = Ok c ->
  exists n, In n (fieldNames fields) /\ k = VStr n.
Proof.
  unfold getitem. destruct (py_hashable k); [|discriminate].
  destruct (dict_get k _) as [c'|] eqn:E; [|discriminate]. intros _.
  destruct (dict_get_Some_key _ _ _ E) as (k' & Hin & Hk).
  pose proof (build_convs_keys create fields) as F.
  rewrite Forall_forall in F. destruct (F _ Hin) as (n & Hn & Hk').
  simpl in Hk'. subst k'. exists n. split; [assumption|].
  now apply key_eqb_str_l.
Qed.

(** A key that is no field name finds no converter. *)
Lemma build_convs_getitem_unknown create fields k :
  (forall n, In n (fieldNames fields) -> k <> VStr n) ->
  exists e, getitem (build_convs create fields) k = Raise e.
Proof.
  intros H. destruct (getitem (build_convs create fields) k) as [c|e] eqn:E; [|eauto].
  destruct (build_convs_getitem_name _ _ _ _ E) as (n & Hn & ->).
  now destruct (H n Hn).
Qed.

Lemma keyed_loop_keys check convs names items acc d :
  (forall k c, getitem convs k = Ok c -> exists n, In n names /\ k = VStr n) ->
  keys_among names acc ->
  Out.keyed_loop check convs items acc = Ok d ->
  keys_among names d.
Proof.
  intros Hconvs. revert acc.
  induction items as [|[k v] items IH]; intros acc Hacc H.
  - inversion H. now subst.
  - cbn [Out.keyed_loop] in H.
    destruct (assert (negb check || is_str k)); cbn [bind] in H; [|discriminate].
    destruct (getitem convs k) as [c|] eqn:Eg; cbn [bind] in H; [|discriminate].
    destruct (c v) as [r|]; cbn [bind] in H; [|discriminate].
    unfold setitem in H. destruct (py_hashable k); cbn [bind] in H; [|discriminate].
    apply (IH _ (dict_put_keys
                   (fun k => exists n, In n names /\ k = VStr n) k r acc Hacc
                   (Hconvs _ _ Eg)) H).
Qed.

Lemma positional_loop_keys names convs values i acc d :
  keys_among names acc ->
  Out.positional_loop names convs values i acc = Ok d ->
  keys_among names d.
Proof.
  revert i acc. induction values as [|v values IH]; intros i acc Hacc H.
  - inversion H. now subst.
  - cbn [Out.positional_loop] in H. unfold list_index in H.
    destruct (nth_error names i) as [n|] eqn:En; cbn [bind] in H; [|discriminate].
    destruct (getitem convs (VStr n)) as [c|]; cbn [bind] in H; [|discriminate].
    destruct (c v) as [r|]; cbn [bind] in H; [|discriminate].
    unfold setitem in H. cbn [py_hashable bind] in H.
    apply (IH _ _ (dict_put_keys
                     (fun k => exists n, In n names /\ k = VStr n) (VStr n) r acc Hacc
                     (ex_intro _ n (conj (nth_error_In _ _ En) eq_refl))) H).
Qed.

(** A converted row is a keyed mapping over field names. *)
Lemma convert_item_keyed create fields item r :
  Out.convert_item (fieldNames fields) (build_convs create fields) item = Ok r ->
  is_keyed_row (fieldNames fields) r.
Proof.
  intros H.
  assert (Hnil : keys_among (fieldNames fields) []) by constructor.
  pose proof (build_convs_getitem_name create fields) as Hc.
  unfold Out.convert_item in H.
  destruct item as [| | | | | | | | | | | | | |[fs|] l|items];
    cbn [py_iter bind] in H; try discriminate;
    match type of H with
    | context [Out.keyed_loop ?c ?convs ?its ?acc] =>
        destruct (Out.keyed_loop c convs its acc) as [d|] eqn:E;
        cbn [bind] in H; [|discriminate]; inversion H; subst;
        exact (keyed_loop_keys _ _ _ _ _ _ Hc Hnil E)
    | context [Out.positional_loop ?ns ?convs ?vs ?i ?acc] =>
        destruct (Out.positional_loop ns convs vs i acc) as [d|] eqn:E;
        cbn [bind] in H; [|discriminate]; inversion H; subst;
        exact (positional_loop_keys _ _ _ _ _ _ Hnil E)
    end.
Qed.

(** X8: outbound, when [convert] returns a table, the data was a non-empty
    list and the schema a struct type, the schema mapping succeeded, and
    the table constructor received one keyed mapping per row of the data,
    every key of which is a field name of the schema. *)
Theorem outbound_convert_result :
  forall lo so (pa_Schema pa_Table : Type)
         (to_arrow_schema : DataType -> result pa_Schema)
         (from_pylist : list pyval -> pa_Schema -> result pa_Table)
         data schema table,
    Out.convert lo so to_arrow_schema from_pylist data schema = Ok table ->
    exists rows fields pa_schema pylist,
      data = VList rows /\ rows <> [] /\
      schema = Some (StructType fields) /\
      to_arrow_schema (StructType fields) = Ok pa_schema /\
      from_pylist pylist pa_schema = Ok table /\
      List.length pylist = List.length rows /\
      Forall (is_keyed_row (fieldNames fields)) pylist.
Proof.
  intros lo so pa_Schema pa_Table to_arrow_schema from_pylist data schema table H.
  destruct data as [| | | | | | | | | | |[|row rows]| | | |]; try discriminate.
  destruct schema as [[| | | | | | | | | | | | | | | | |fields]|]; try discriminate.
  rewrite outbound_convert_unfold in H.
  destruct (to_arrow_schema (StructType fields)) as [pa_schema|] eqn:Es;
    cbn [bind] in H; [|discriminate].
  destruct (mapM _ (row :: rows)) as [pylist|] eqn:Em; cbn [bind] in H; [|discriminate].
  exists (row :: rows), fields, pa_schema, pylist.
  repeat split; try assumption; try discriminate.
  - now apply mapM_length in Em.
  - apply mapM_Forall2_inv in Em.
    clear H. induction Em as [|item r l l' Hr _ IH]; constructor; [|exact IH].
    now apply convert_item_keyed in Hr.
Qed.

Lemma outbound_convert_result_witness :
  exists rows fields pa_schema pylist,
    VList [VTuple [VInt 1]; VDict [(VStr "a", VInt 2)]] = VList rows /\ rows <> [] /\
    Some (StructType [mkStructField "a" IntegerType true])
    = Some (StructType fields) /\
    (fun _ : DataType => Ok tt) (StructType fields) = Ok pa_schema /\
    (fun (pylist : list pyval) (_ : unit) => Ok pylist) pylist pa_schema
    = Ok [VDict [(VStr "a", VInt 1)]; VDict [(VStr "a", VInt 2)]] /\
    List.length pylist = List.length rows /\
    Forall (is_keyed_row (fieldNames fields)) pylist.
Proof.
  apply (outbound_convert_result (fun _ => Ok 0) (fun _ => "") unit (list pyval)
           (fun _ => Ok tt) (fun pylist _ => Ok pylist)
           (VList [VTuple [VInt 1]; VDict [(VStr "a", VInt 2)]])
           (Some (StructType [mkStructField "a" IntegerType true]))).
  reflexivity.
Defined.

(** The keyed loop fails when one of its keys finds no converter. *)
Lemma keyed_loop_missing check (convs : dict converter) items k v e :
  In (k, v) items -> getitem convs k = Raise e ->
  forall acc, exists e', Out.keyed_loop check convs items acc = Raise e'.
Proof.
  intros Hin He.
  induction items as [|[k0 v0] items IH]; [contradiction|].
  intros acc. cbn [Out.keyed_loop].
  destruct (assert (negb check || is_str k0)); cbn [bind]; [|eauto].
  destruct Hin as [Heq|Hin].
  - injection Heq as -> ->. rewrite He. cbn [bind]. eauto.
  - destruct (getitem convs k0) as [c0|]; cbn [bind]; [|eauto].
    destruct (c0 v0) as [r|]; cbn [bind]; [|eauto].
    destruct (setitem acc k0 r); cbn [bind]; [|eauto].
    now apply IH.
Qed.

(** X9: outbound, a keyed value with a key that is not the name of a field
    fails, as a struct value and as a row of a batch, which fails as a
    whole; when the unknown key is a string and comes first the failure is
    a key error. *)
Theorem outbound_unknown_field :
  forall lo so (pa_Schema pa_Table : Type)
         (to_arrow_schema : DataType -> result pa_Schema)
         (from_pylist : list pyval -> pa_Schema -> result pa_Table)
         fields k v items,
    In (k, v) items ->
    (forall n, In n (fieldNames fields) -> k <> VStr n) ->
    (exists e, Out._create_converter lo so (StructType fields) (VDict items) = Raise e) /\
    (forall pre post,
        exists e,
          Out.convert lo so to_arrow_schema from_pylist
            (VList (pre ++ VDict items :: post)) (Some (StructType fields))
          = Raise e) /\
    (forall rest,
        is_str k = true ->
        Out._create_converter lo so (StructType fields) (VDict ((k, v) :: rest))
        = Raise KeyError).
Proof.
  intros lo so pa_Schema pa_Table to_arrow_schema from_pylist fields k v items
         Hin Hk.
  set (convs := build_convs (fun field => Out._create_converter lo so (dataType field))
                            fields).
  destruct (build_convs_getitem_unknown
              (fun field => Out._create_converter lo so (dataType field)) fields k Hk)
    as [e He].
  fold convs in He.
  split; [|split].
  - rewrite outbound_struct_unfold. cbn [Out.convert_struct]. fold convs.
    destruct (keyed_loop_missing true convs items k v e Hin He []) as [e' ->].
    cbn [bind]. eauto.
  - intros pre post.
    destruct (keyed_loop_missing false convs items k v e Hin He []) as [e' He'].
    apply (outbound_convert_raise lo so to_arrow_schema from_pylist
             fields pre post (VDict items) e').
    cbn [Out.convert_item]. fold convs. now rewrite He'.
  - intros rest Hs. rewrite outbound_struct_unfold.
    cbn [Out.convert_struct Out.keyed_loop negb orb]. rewrite Hs. cbn [assert bind].
    fold convs. destruct k; try discriminate.
    unfold getitem in *. cbn [py_hashable] in *.
    destruct (dict_get (VStr s) convs); [discriminate|]. reflexivity.
Qed.

Lemma outbound_unknown_field_witness :
  Out._create_converter (fun _ => Ok 0) (fun _ => "")
    (StructType [mkStructField "a" IntegerType true])
    (VDict [(VStr "b", VInt 1); (VStr "a", VInt 2)]) = Raise KeyError /\
  exists e,
    Out.convert (fun _ => Ok 0) (fun _ => "") (fun _ => Ok tt) (fun pylist _ => Ok pylist)
      (VList [VTuple [VInt 1]; VDict [(VStr "a", VInt 2); (VStr "b", VInt 1)]])
      (Some (StructType [mkStructField "a" IntegerType true]))
    = Raise e.
Proof.
  assert (Hk : forall n, In n (fieldNames [mkStructField "a" IntegerType true]) ->
                         VStr "b" <> VStr n).
  { intros n [<-|[]]. discriminate. }
  split.
  - apply (proj2 (proj2
             (outbound_unknown_field (fun _ => Ok 0) (fun _ => "") unit (list pyval)
                (fun _ => Ok tt) (fun pylist _ => Ok pylist)
                [mkStructField "a" IntegerType true] (VStr "b") (VInt 1)
                [(VStr "b", VInt 1)] (or_introl eq_refl) Hk))
             [(VStr "a", VInt 2)] eq_refl).
  - apply (proj1 (proj2
             (outbound_unknown_field (fun _ => Ok 0) (fun _ => "") unit (list pyval)
                (fun _ => Ok tt) (fun pylist _ => Ok pylist)
                [mkStructField "a" IntegerType true] (VStr "b") (VInt 1)
                [(VStr "a", VInt 2); (VStr "b", VInt 1)]
                (or_intror (or_introl eq_refl)) Hk))
             [VTuple [VInt 1]] []).
Defined.

(* ================================================================== *)
(** * Rows to a table and back *)
(* ================================================================== *)

Lemma mapM_seq_nth {B} (f : nat -> result B) (l : list B) start :
  (forall j b, nth_error l j = Some b -> f (start + j)%nat = Ok b) ->
  mapM f (seq start (List.length l)) = Ok l.
Proof.
  revert start. induction l as [|b l IH]; intros start H; [reflexivity|].
  cbn [List.length seq mapM].
  rewrite <- (Nat.add_0_r start) at 1. rewrite (H 0%nat b eq_refl). cbn [bind].
  rewrite IH; [reflexivity|].
  intros j b' Hj. replace (S start + j)%nat with (start + S j)%nat by lia.
  now apply (H (S j)).
Qed.

Lemma dict_get_combine_nth names (vs : list pyval) j n v :
  NoDup names ->
  nth_error names j = Some n -> nth_error vs j = Some v ->
  dict_get (VStr n) (combine (map VStr names) vs) = Some v.
Proof.
  intros Hnd. revert vs j.
  induction names as [|m names IH]; intros [|x vs] [|j] Hn Hv;
    try discriminate; cbn [map combine dict_get] in *.
  - inversion Hn; inversion Hv; subst. simpl. now rewrite String.eqb_refl.
  - inversion Hnd; subst. simpl.
    destruct (String.eqb_spec m n) as [->|_].
    + exfalso. apply H1. eapply nth_error_In; eauto.
    + now apply (IH H2 vs j).
Qed.

Lemma Forall2_identity_fields (create : StructField -> converter) fields vs :
  Forall (fun f => forall v, create f v = Ok v) fields ->
  List.length vs = List.length fields ->
  Forall2 (fun fv r => create (fst fv) (snd fv) = Ok r) (combine fields vs) vs.
Proof.
  intros H. revert vs. induction H as [|f fields Hf _ IH]; intros [|v vs] Hlen;
    try discriminate; simpl; constructor.
  - apply Hf.
  - apply IH. now injection Hlen.
Qed.

(** X10: rows made of values that need no conversion come back as they
    went.  Take a schema with distinct field names whose field types need
    no conversion outbound, positional rows with one value per field, and
    a table constructor whose tables hold the keyed mappings they are made
    from.  The table that the outbound [convert] returns is read by the
    inbound [convert], under the same schema, as the rows named after the
    fields with their original values, in order. *)
Theorem round_trip_stable_types :
  forall lo so (pa_Schema : Type)
         (to_arrow_schema : DataType -> result pa_Schema)
         (from_pylist : list pyval -> pa_Schema -> result Table)
         fields rows table,
    NoDup (fieldNames fields) ->
    Forall (fun f => Out._need_converter (dataType f) = false) fields ->
    Forall (fun vs => List.length vs = List.length fields) rows ->
    (forall pylist pa_schema t,
        from_pylist pylist pa_schema = Ok t ->
        stores_pylist (fieldNames fields) pylist t) ->
    Out.convert lo so to_arrow_schema from_pylist
      (VList (map VTuple rows)) (Some (StructType fields)) = Ok table ->
    In.convert table (Some (StructType fields))
    = Ok (map (_create_row (fieldNames fields)) rows).
Proof.
  intros lo so pa_Schema to_arrow_schema from_pylist fields rows table
         Hnd Hstable Hrows Hstore Hout.
  set (names := fieldNames fields) in *.
  set (create := fun field => Out._create_converter lo so (dataType field)).
  (* the keyed mappings handed to the table constructor *)
  set (keyed := fun vs : list pyval => VDict (combine (map VStr names) vs)).
  assert (Hitem : forall vs, In vs rows ->
             Out.convert_item names (build_convs create fields) (VTuple vs)
             = Ok (keyed vs)).
  { intros vs Hin. rewrite Forall_forall in Hrows. specialize (Hrows vs Hin).
    cbn [Out.convert_item py_iter bind].
    rewrite struct_positional;
      [| assumption | unfold names, fieldNames; rewrite length_map; lia].
    unfold names, fieldNames. rewrite (convert_fields_combine _ create).
    - rewrite (mapM_combine_results create fields vs vs); [reflexivity|].
      apply Forall2_identity_fields; [|assumption].
      eapply Forall_impl; [|exact Hstable].
      intros f Hf v. now apply outbound_identity.
    - intros f Hf. now apply build_convs_get. }
  assert (Hpylist : mapM (Out.convert_item names (build_convs create fields))
                         (map VTuple rows) = Ok (map keyed rows)).
  { apply mapM_Forall2. clear -Hitem.
    induction rows as [|vs rows IH]; simpl; constructor.
    - apply Hitem. now left.
    - apply IH. intros vs' H. apply Hitem. now right. }
  destruct rows as [|vs0 rows0] eqn:Erows; [discriminate|]. rewrite <- Erows in *.
  assert (Hout' : exists pa_schema, from_pylist (map keyed rows) pa_schema = Ok table).
  { rewrite Erows in Hout. cbn [map] in Hout.
    rewrite outbound_convert_unfold in Hout.
    destruct (to_arrow_schema _) as [pa_schema|]; cbn [bind] in Hout; [|discriminate].
    fold create names in Hout.
    change (VTuple vs0 :: map VTuple rows0) with (map VTuple (vs0 :: rows0)) in Hout.
    rewrite <- Erows, Hpylist in Hout. cbn [bind] in Hout. eauto. }
  destruct Hout' as [pa_schema Hfrom].
  destruct (Hstore _ _ _ Hfrom) as (Hnames & Hnum & Hcols).
  clear Hout Hfrom Erows vs0 rows0.
  (* reading the table back *)
  unfold In.convert. cbn [assert bind].
  rewrite Hnum, Hnames, length_map.
  rewrite <- (length_map (_create_row names) rows).
  apply mapM_seq_nth. intros i row Hi. cbn [Nat.add].
  rewrite nth_error_map in Hi.
  destruct (nth_error rows i) as [vs|] eqn:Ei; [|discriminate].
  injection Hi as <-.
  assert (Hlen : List.length vs = List.length fields).
  { rewrite Forall_forall in Hrows. apply Hrows. eapply nth_error_In; eauto. }
  assert (Hrow : In.convert_row (map (fun f => In._create_converter (dataType f)) fields)
                                (columns table) table i = Ok vs).
  { unfold In.convert_row, num_columns. rewrite Hcols, length_map.
    unfold names, fieldNames. rewrite length_map, <- Hlen.
    apply mapM_seq_nth. intros j v Hj. cbn [Nat.add].
    destruct (nth_error fields j) as [f|] eqn:Ef.
    2:{ apply nth_error_None in Ef.
        assert (nth_error vs j <> None) by congruence.
        apply nth_error_Some in H. lia. }
    unfold list_index.
    rewrite nth_error_map, Ef. cbn [option_map bind].
    rewrite !nth_error_map, Ef. cbn [option_map bind].
    rewrite !nth_error_map, Ei. cbn [option_map bind].
    rewrite inbound_identity.
    - unfold keyed, pylist_cell.
      rewrite (dict_get_combine_nth names vs j (name f) v); auto.
      unfold names, fieldNames. now rewrite nth_error_map, Ef.
    - apply need_converter_inbound_outbound.
      rewrite Forall_forall in Hstable. apply Hstable. eapply nth_error_In; eauto. }
  rewrite Hrow. reflexivity.
Qed.

Lemma round_trip_stable_types_witness :
  In.convert
    (mkTable ["a"; "b"] [[VInt 1; VNone]; [VBool true; VBool false]] 2)
    (Some (StructType [mkStructField "a" IntegerType true;
                       mkStructField "b" BooleanType true]))
  = Ok [VRow (Some ["a"; "b"]) [VInt 1; VBool true];
        VRow (Some ["a"; "b"]) [VNone; VBool false]].
Proof.
  apply (round_trip_stable_types (fun _ => Ok 0) (fun _ => "") unit
           (fun _ => Ok tt)
           (fun pylist _ =>
              Ok (mkTable ["a"; "b"]
                          (map (fun n => map (pylist_cell n) pylist) ["a"; "b"])
                          (List.length pylist)))
           [mkStructField "a" IntegerType true; mkStructField "b" BooleanType true]
           [[VInt 1; VBool true]; [VNone; VBool false]]).
  - repeat constructor; simpl; intuition discriminate.
  - repeat constructor.
  - repeat constructor.
  - intros pylist pa_schema t H. injection H as <-. repeat split.
  - reflexivity.
Defined.

(* ================================================================== *)
(** * Converting a converted value again *)
(* ================================================================== *)

(** Induction over types that looks inside the fields of a struct type. *)
Lemma DataType_fields_ind (P : DataType -> Prop) :
  (forall dt,
      match dt with
      | ArrayType _ | MapType _ _ | StructType _ => True
      | _ => P dt
      end) ->
  (forall elementType, P elementType -> P (ArrayType elementType)) ->
  (forall keyType valueType, P keyType -> P valueType -> P (MapType keyType valueType)) ->
  (forall fields, Forall (fun f => P (dataType f)) fields -> P (StructType fields)) ->
  forall dt, P dt.
Proof.
  intros Hleaf Harray Hmap Hstruct.
  fix IH 1.
  intros dt; destruct dt;
    try (match goal with |- P ?t => exact (Hleaf t) end).
  - apply Harray, IH.
  - apply Hmap; apply IH.
  - apply Hstruct.
    revert fields. fix IHl 1. intros [|[n t b] fs]; constructor; [apply IH | apply IHl].
Qed.

(** What a store does to the entries of a dictionary. *)
Lemma dict_put_entries {V} (P : pyval * V -> Prop) k (v : V) d :
  Forall P d ->
  (forall k' v', P (k', v') -> key_eqb k' k = true -> P (k', v)) ->
  P (k, v) ->
  Forall P (dict_put k v d).
Proof.
  intros Hd Hrep Hnew. induction d as [|[k0 v0] d IH]; simpl.
  - constructor; [exact Hnew | constructor].
  - inversion Hd; subst. destruct (key_eqb k0 k) eqn:E; constructor; eauto.
Qed.

Lemma dict_put_fst_keys {V} k (v : V) d :
  map fst (dict_put k v d) = map fst d \/
  (map fst (dict_put k v d) = map fst d ++ [k] /\
   forall kv, In kv d -> key_eqb (fst kv) k = false).
Proof.
  induction d as [|[k0 v0] d IH]; simpl.
  - right. split; [reflexivity | contradiction].
  - destruct (key_eqb k0 k) eqn:E; simpl.
    + now left.
    + destruct IH as [->|[-> H]]; [now left | right].
      split; [reflexivity|]. intros kv [<-|Hin]; [exact E | now apply H].
Qed.

Lemma dict_wf_keys {V W} (d : dict V) (d' : dict W) :
  map fst d = map fst d' -> dict_wf d = dict_wf d'.
Proof.
  revert d'. induction d as [|[k v] d IH]; intros [|[k' v'] d'] H;
    try discriminate; [reflexivity|].
  simpl in H. injection H as -> H. cbn [dict_wf]. rewrite (IH d' H). f_equal. f_equal.
  clear IH. revert d' H. induction d as [|[k0 v0] d IH]; intros [|[k1 v1] d'] H;
    try discriminate; [reflexivity|].
  simpl in H. injection H as -> H. simpl. f_equal. now apply IH.
Qed.

Lemma dict_wf_app_one {V} (d : dict V) k v :
  dict_wf d = true -> py_hashable k = true ->
  (forall kv, In kv d -> key_eqb (fst kv) k = false) ->
  dict_wf (d ++ [(k, v)]) = true.
Proof.
  induction d as [|[k0 v0] d IH]; intros Hwf Hk Hfresh.
  - simpl. now rewrite Hk.
  - cbn [dict_wf app] in *. rewrite !andb_true_iff in *.
    destruct Hwf as [[Hh Hall] Hwf]. repeat split.
    + exact Hh.
    + rewrite forallb_app, Hall. simpl.
      pose proof (Hfresh (k0, v0) (or_introl eq_refl)) as F. simpl in F.
      now rewrite F.
    + apply IH; auto. intros kv Hin. apply Hfresh. now right.
Qed.

(** A store keeps a dictionary well formed. *)
Lemma dict_put_wf {V} k (v : V) d :
  dict_wf d = true -> py_hashable k = true -> dict_wf (dict_put k v d) = true.
Proof.
  intros Hwf Hk.
  destruct (dict_put_fst_keys k v d) as [E|[E Hfresh]].
  - now rewrite (dict_wf_keys _ d E).
  - rewrite (dict_wf_keys _ (d ++ [(k, v)])).
    + now apply dict_wf_app_one.
    + rewrite E, map_app. reflexivity.
Qed.

(** An invariant of the mapping under construction that every store of a
    converted value keeps holds of the mapping a loop returns. *)
Lemma keyed_loop_inv (P : dict pyval -> Prop) (convs : dict converter) items acc d :
  (forall acc k (c : converter) v r,
      P acc -> is_str k = true -> getitem convs k = Ok c -> c v = Ok r ->
      P (dict_put k r acc)) ->
  P acc -> Out.keyed_loop true convs items acc = Ok d -> P d.
Proof.
  intros Hstep. revert acc.
  induction items as [|[k v] items IH]; intros acc Hacc H.
  - inversion H. now subst.
  - cbn [Out.keyed_loop negb orb] in H.
    destruct (is_str k) eqn:Es; cbn [assert bind] in H; [|discriminate].
    destruct (getitem convs k) as [c|] eqn:Eg; cbn [bind] in H; [|discriminate].
    destruct (c v) as [r|] eqn:Ec; cbn [bind] in H; [|discriminate].
    unfold setitem in H. destruct (py_hashable k); cbn [bind] in H; [|discriminate].
    eapply IH; [|exact H]. eapply Hstep; eauto.
Qed.

Lemma positional_loop_inv (P : dict pyval -> Prop) names (convs : dict converter)
    values i acc d :
  (forall acc k (c : converter) v r,
      P acc -> is_str k = true -> getitem convs k = Ok c -> c v = Ok r ->
      P (dict_put k r acc)) ->
  P acc -> Out.positional_loop names convs values i acc = Ok d -> P d.
Proof.
  intros Hstep. revert i acc.
  induction values as [|v values IH]; intros i acc Hacc H.
  - inversion H. now subst.
  - cbn [Out.positional_loop] in H.
    destruct (list_index names i) as [n|]; cbn [bind] in H; [|discriminate].
    destruct (getitem convs (VStr n)) as [c|] eqn:Eg; cbn [bind] in H; [|discriminate].
    destruct (c v) as [r|] eqn:Ec; cbn [bind] in H; [|discriminate].
    unfold setitem in H. cbn [py_hashable bind] in H.
    eapply IH; [|exact H]. eapply (Hstep acc (VStr n)); eauto.
Qed.

(** The keyed loop over a settled mapping rebuilds it. *)
Lemma keyed_loop_settled convs d acc :
  settled convs d ->
  (forall kv, In kv d -> dict_get (fst kv) acc = None) ->
  Out.keyed_loop true convs d acc = Ok (acc ++ d).
Proof.
  intros [Hwf Hent]. revert acc Hwf.
  induction Hent as [|[k r] d (Hs & c & Hc & Hr) _ IH]; intros acc Hwf Hfresh.
  - simpl. now rewrite app_nil_r.
  - cbn [dict_wf] in Hwf. rewrite !andb_true_iff in Hwf.
    destruct Hwf as [[Hh Hall] Hwf]. cbn [fst snd] in *.
    cbn [Out.keyed_loop negb orb]. rewrite Hs. cbn [assert bind].
    rewrite Hc. cbn [bind]. rewrite Hr. cbn [bind].
    unfold setitem. rewrite Hh. cbn [bind].
    rewrite dict_put_fresh by (apply (Hfresh (k, r)); now left).
    rewrite IH; [now rewrite <- app_assoc | assumption |].
    intros kv Hin. rewrite dict_get_app_None by (apply Hfresh; now right).
    simpl. rewrite forallb_forall in Hall. specialize (Hall kv Hin).
    now destruct (key_eqb k (fst kv)).
Qed.

Lemma mapM_fixed {A} (f : A -> result A) l :
  Forall (fun a => f a = Ok a) l -> mapM f l = Ok l.
Proof.
  induction 1 as [|a l Ha _ IH]; simpl; [reflexivity|]. now rewrite Ha, IH.
Qed.

(** Every registered converter is the converter of a field. *)
Lemma build_convs_values create fields k c :
  getitem (build_convs create fields) k = Ok c ->
  exists f, In f fields /\ c = create f.
Proof.
  unfold getitem. destruct (py_hashable k); [|discriminate].
  destruct (dict_get k _) as [c'|] eqn:E; [|discriminate].
  intros H. injection H as <-.
  destruct (dict_get_Some_key _ _ _ E) as (k' & Hin & _).
  assert (G : forall (l : list StructField) (d : dict converter),
             (forall f, In f l -> In f fields) ->
             Forall (fun kc => exists f, In f fields /\ snd kc = create f) d ->
             Forall (fun kc => exists f, In f fields /\ snd kc = create f)
                    (fold_left (fun d f => dict_put (VStr (name f)) (create f) d) l d)).
  { induction l as [|f l IH]; intros d Hl Hd; [exact Hd|].
    cbn [fold_left]. apply IH.
    - intros g Hg. apply Hl. now right.
    - apply dict_put_entries.
      + exact Hd.
      + intros k1 v1 _ _. exists f. split; [apply Hl; now left | reflexivity].
      + exists f. split; [apply Hl; now left | reflexivity]. }
  specialize (G fields [] (fun f H => H) (Forall_nil _)).
  rewrite Forall_forall in G. exact (G _ Hin).
Qed.

(** A store of a converted value keeps a mapping settled, when converters
    leave their own results unchanged. *)
Lemma settled_put (convs : dict converter) acc k (c : converter) v r :
  (forall k (c : converter) v r,
      getitem convs k = Ok c -> c v = Ok r -> c r = Ok r) ->
  settled convs acc ->
  is_str k = true -> getitem convs k = Ok c -> c v = Ok r ->
  settled convs (dict_put k r acc).
Proof.
  intros Hidem [Hwf Hent] Hs Hc Hr. split.
  - apply dict_put_wf; [assumption|]. now destruct k.
  - apply (dict_put_entries
             (fun kr => is_str (fst kr) = true /\
                        exists c : converter,
                          getitem convs (fst kr) = Ok c /\ c (snd kr) = Ok (snd kr))).
    + exact Hent.
    + intros k' v' [Hs' _] Hk. cbn [fst snd] in *. split; [assumption|].
      destruct k'; try discriminate. apply key_eqb_str_l in Hk. subst k.
      exists c. split; [assumption | eapply Hidem; eauto].
    + cbn [fst snd]. split; [assumption|].
      exists c. split; [assumption | eapply Hidem; eauto].
Qed.

Lemma outbound_idempotent_map_free lo so dt :
  map_free dt = true ->
  forall v r,
    Out._create_converter lo so dt v = Ok r ->
    Out._create_converter lo so dt r = Ok r.
Proof.
  revert dt.
  apply (DataType_fields_ind
           (fun dt => map_free dt = true ->
                      forall v r,
                        Out._create_converter lo so dt v = Ok r ->
                        Out._create_converter lo so dt r = Ok r)).
  - intros dt. destruct dt; try exact I; intros _ v r H;
      try (simpl in H; inversion H; subst; reflexivity).
    + (* string *)
      destruct v; simpl in H; try discriminate; inversion H; subst; reflexivity.
    + (* binary *)
      destruct v; simpl in H; try discriminate; inversion H; subst; reflexivity.
    + (* timestamp *)
      destruct v; cbn [Out._create_converter Out._need_converter negb
                       Out.convert_timestample] in H;
        try discriminate; [inversion H; subst; reflexivity|].
      destruct (astimezone_utc lo d) as [d'|] eqn:E; cbn [bind] in H; [|discriminate].
      injection H as <-.
      cbn [Out._create_converter Out._need_converter negb Out.convert_timestample].
      destruct (astimezone_utc_Ok _ _ _ E) as (_ & _ & ->). reflexivity.
    + destruct v; cbn [Out._create_converter Out._need_converter negb
                       Out.convert_timestample] in H;
        try discriminate; [inversion H; subst; reflexivity|].
      destruct (astimezone_utc lo d) as [d'|] eqn:E; cbn [bind] in H; [|discriminate].
      injection H as <-.
      cbn [Out._create_converter Out._need_converter negb Out.convert_timestample].
      destruct (astimezone_utc_Ok _ _ _ E) as (_ & _ & ->). reflexivity.
    + (* decimal *)
      destruct v; simpl in H; try discriminate; inversion H; subst; try reflexivity.
      destruct d as [sig| |]; reflexivity.
  - (* array *)
    intros dt IHdt Hfree v r H. cbn [map_free] in Hfree.
    cbn [Out._create_converter Out._need_converter] in *.
    destruct (Out._need_converter dt); cbn [negb] in *.
    + destruct v; simpl in H; try discriminate.
      * inversion H; subst. reflexivity.
      * destruct (mapM (Out._create_converter lo so dt) l) as [l'|] eqn:E;
          simpl in H; [|discriminate].
        inversion H; subst. cbn [Out.convert_array].
        rewrite (mapM_fixed _ l'); [reflexivity|].
        apply mapM_Forall2_inv in E. clear H.
        induction E; constructor; eauto.
      * destruct (mapM (Out._create_converter lo so dt) l) as [l'|] eqn:E;
          simpl in H; [|discriminate].
        inversion H; subst. cbn [Out.convert_array].
        rewrite (mapM_fixed _ l'); [reflexivity|].
        apply mapM_Forall2_inv in E. clear H.
        induction E; constructor; eauto.
    + inversion H; subst. reflexivity.
  - discriminate.
  - (* struct *)
    intros fields H Hfree v r Hv. cbn [map_free] in Hfree.
    rewrite outbound_struct_unfold in *.
    set (create := fun field => Out._create_converter lo so (dataType field)) in *.
    set (convs := build_convs create fields) in *.
    assert (Hidem : forall k (c : converter) v r,
               getitem convs k = Ok c -> c v = Ok r -> c r = Ok r).
    { intros k c v' r' Hc Hr.
      destruct (build_convs_values _ _ _ _ Hc) as (f & Hf & ->).
      rewrite Forall_forall in H. rewrite forallb_forall in Hfree.
      exact (H f Hf (Hfree f Hf) v' r' Hr). }
    assert (Hnil : settled convs []) by (split; [reflexivity | constructor]).
    assert (Hstep : forall acc k (c : converter) v r,
               settled convs acc -> is_str k = true ->
               getitem convs k = Ok c -> c v = Ok r ->
               settled convs (dict_put k r acc)).
    { intros acc k c v' r' Hacc Hs Hc Hr. eapply settled_put; eauto. }
    assert (Hagain : forall d, settled convs d ->
               Out.convert_struct (fieldNames fields) convs (VDict d) = Ok (VDict d)).
    { intros d Hd. cbn [Out.convert_struct].
      rewrite (keyed_loop_settled convs d [] Hd); [reflexivity|].
      reflexivity. }
    destruct v as [| | | | | | | | | | | | | |[fs|] l|items];
      cbn [Out.convert_struct] in Hv; try discriminate.
    + inversion Hv; subst. reflexivity.
    + destruct (Out.positional_loop _ _ _ _ _) as [d|] eqn:E;
        cbn [bind] in Hv; [|discriminate].
      inversion Hv; subst. apply Hagain.
      exact (positional_loop_inv _ _ _ _ _ _ _ Hstep Hnil E).
    + destruct (Out.keyed_loop _ _ _ _) as [d|] eqn:E;
        cbn [bind] in Hv; [|discriminate].
      inversion Hv; subst. apply Hagain.
      exact (keyed_loop_inv _ _ _ _ _ Hstep Hnil E).
    + destruct (Out.positional_loop _ _ _ _ _) as [d|] eqn:E;
        cbn [bind] in Hv; [|discriminate].
      inversion Hv; subst. apply Hagain.
      exact (positional_loop_inv _ _ _ _ _ _ _ Hstep Hnil E).
    + destruct (Out.keyed_loop _ _ _ _) as [d|] eqn:E;
        cbn [bind] in Hv; [|discriminate].
      inversion Hv; subst. apply Hagain.
      exact (keyed_loop_inv _ _ _ _ _ Hstep Hnil E).
Qed.

(** X11: outbound, for a type in which no map type occurs, a converted
    value converts to itself: running the converter on its own result
    changes nothing and does not fail.  The result of converting a mapping
    under a map type, a list of pairs, is rejected by that converter. *)
Theorem outbound_idempotent :
  forall lo so dt,
    (map_free dt = true ->
     forall v r,
       Out._create_converter lo so dt v = Ok r ->
       Out._create_converter lo so dt r = Ok r) /\
    (forall keyType valueType items r,
        Out._create_converter lo so (MapType keyType valueType) (VDict items) = Ok r ->
        Out._create_converter lo so (MapType keyType valueType) r
        = Raise AssertionError).
Proof.
  intros lo so dt. split.
  - apply outbound_idempotent_map_free.
  - intros K V items r H.
    cbn [Out._create_converter Out._need_converter negb Out.convert_map] in *.
    destruct (mapM _ items); cbn [bind] in H; [|discriminate].
    inversion H; subst. reflexivity.
Qed.

Lemma outbound_idempotent_witness :
  let dt := StructType [mkStructField "s" StringType true;
                        mkStructField "l" (ArrayType BinaryType) true] in
  Out._create_converter (fun _ => Ok 0) (fun _ => "") dt
    (VDict [(VStr "s", VStr "true"); (VStr "l", VList [VBytes []])])
  = Ok (VDict [(VStr "s", VStr "true"); (VStr "l", VList [VBytes []])]) /\
  Out._create_converter (fun _ => Ok 0) (fun _ => "") (MapType IntegerType IntegerType)
    (VList [VTuple [VInt 1; VInt 2]]) = Raise AssertionError.
Proof.
  intros dt. split.
  - apply (proj1 (outbound_idempotent (fun _ => Ok 0) (fun _ => "") dt) eq_refl
             (VTuple [VBool true; VList [VBytearray []]])).
    reflexivity.
  - apply (proj2 (outbound_idempotent (fun _ => Ok 0) (fun _ => "") NullType)
             IntegerType IntegerType [(VInt 1, VInt 2)]).
    reflexivity.
Defined.

(* ================================================================== *)
(** * Positional rows and positional struct values *)
(* ================================================================== *)

(** X12: outbound, [convert] takes a row given as a list for a positional
    row: a batch of lists converts exactly as the batch of the tuples with
    the same values.  A struct converter does not: given a list for a
    struct value it fails its assertion. *)
Theorem outbound_list_rows :
  forall lo so (pa_Schema pa_Table : Type)
         (to_arrow_schema : DataType -> result pa_Schema)
         (from_pylist : list pyval -> pa_Schema -> result pa_Table)
         fields,
    (forall rows,
        Out.convert lo so to_arrow_schema from_pylist
          (VList (map VList rows)) (Some (StructType fields))
        = Out.convert lo so to_arrow_schema from_pylist
            (VList (map VTuple rows)) (Some (StructType fields))) /\
    (forall values,
        Out._create_converter lo so (StructType fields) (VList values)
        = Raise AssertionError).
Proof.
  intros lo so pa_Schema pa_Table to_arrow_schema from_pylist fields. split.
  - intros [|vs rows]; [reflexivity|]. cbn [map].
    rewrite !outbound_convert_unfold.
    assert (E : forall (f : pyval -> result pyval) (l : list (list pyval)),
               (forall vs, f (VList vs) = f (VTuple vs)) ->
               mapM f (map VList l) = mapM f (map VTuple l)).
    { intros f l Hf. induction l as [|x l IH]; [reflexivity|].
      cbn [map mapM]. now rewrite Hf, IH. }
    change (VList vs :: map VList rows) with (map VList (vs :: rows)).
    change (VTuple vs :: map VTuple rows) with (map VTuple (vs :: rows)).
    rewrite (E _ (vs :: rows)); reflexivity.
  - reflexivity.
Qed.
